(** * scarb-nix: the release/checksum synchroniser [scripts/update-versions.py]

    A shallow embedding of the script and the properties its specification
    states about it.

    Conventions of the embedding:
    - a Python [str] is a [string] whose characters are code points below
      256; the character classes below are Python's, restricted to that
      range;
    - a [dict] is a [gmap] (the script never depends on insertion order:
      the only traversal of a dictionary is [json.dump] with
      [sort_keys=True]);
    - a Python [int] is a [Z]; JSON numbers that are not integers are
      outside the model;
    - a raised exception is the [Raise] branch of [result];
    - network, clock and file system are explicit: the upstream replies and
      the clock are read from an [Env], the files and the log of issued
      requests are threaded through a [World];
    - logging is not modelled. *)

From Stdlib Require Import ZArith NArith String Ascii List Bool Lia.
From Stdlib Require Import DecimalString DecimalZ.
From stdpp Require Import gmap strings list fin_maps sorting.

Set Warnings "-register-all".
Local Open Scope string_scope.
Local Open Scope list_scope.
Local Open Scope Z_scope.

(** ** Exceptions *)

Inductive exn : Type :=
  | RequestException
  | ValueError
  | KeyError
  | TypeError
  | FileExistsError
  | FileNotFoundError.

Inductive result (A : Type) : Type :=
  | Ok (a : A)
  | Raise (e : exn).
Arguments Ok {A} a.
Arguments Raise {A} e.

(** ** Characters and the [str] methods the script uses *)

Module Str.

Definition LF : ascii := "010"%char.
Definition CR : ascii := "013"%char.
Definition nl : string := String LF "".

Definition code (c : ascii) : N := N_of_ascii c.

Definition between (lo hi : N) (c : ascii) : bool :=
  ((lo <=? code c) && (code c <=? hi))%N.

(** [str.isspace] on one character: TAB..CR, FS..US, SPACE, NEL, NBSP. *)
Definition is_space (c : ascii) : bool :=
  between 9 13 c || between 28 32 c || (code c =? 133)%N || (code c =? 160)%N.

(** The line boundaries of [str.splitlines]: LF, VT, FF, CR, FS, GS, RS,
    NEL (and CR LF, handled in [splitlines]). *)
Definition is_linebreak (c : ascii) : bool :=
  between 10 13 c || between 28 30 c || (code c =? 133)%N.

(** [\d] of [re] on [str] patterns: the decimal digits. *)
Definition is_digit (c : ascii) : bool := between 48 57 c.

(** [\w] of [re] on [str] patterns: alphanumeric characters and [_]. *)
Definition is_word (c : ascii) : bool :=
  between 48 57 c || between 65 90 c || between 97 122 c || (code c =? 95)%N
  || (code c =? 170)%N || (code c =? 178)%N || (code c =? 179)%N
  || (code c =? 181)%N || (code c =? 185)%N || (code c =? 186)%N
  || between 188 190 c || between 192 214 c || between 216 246 c
  || between 248 255 c.

Definition is_empty (s : string) : bool :=
  match s with "" => true | _ => false end.

Fixpoint drop (n : nat) (s : string) : string :=
  match n, s with
  | S k, String _ s' => drop k s'
  | _, _ => s
  end.

(** [lit p s]: [s] with the literal prefix [p] removed. *)
Fixpoint lit (p s : string) : option string :=
  match p, s with
  | "", _ => Some s
  | String a p', String b s' => if Ascii.eqb a b then lit p' s' else None
  | String _ _, "" => None
  end.

(** [s.split(sep)] for a one-character separator. *)
Fixpoint split_on (sep : ascii) (s : string) : list string :=
  match s with
  | "" => [""]
  | String c s' =>
      if Ascii.eqb c sep then "" :: split_on sep s'
      else match split_on sep s' with
           | l :: ls => String c l :: ls
           | [] => [String c ""]
           end
  end.

(** [s.split()]: the maximal runs of non-whitespace characters. *)
Fixpoint split (s : string) : list string :=
  match s with
  | "" => []
  | String c s' =>
      if is_space c then split s'
      else match s' with
           | "" => [String c ""]
           | String c' _ =>
               if is_space c' then String c "" :: split s'
               else match split s' with
                    | w :: ws => String c w :: ws
                    | [] => [String c ""]
                    end
           end
  end.

(** [s.lstrip()], [s.rstrip()], [s.strip()]. *)
Fixpoint lstrip (s : string) : string :=
  match s with
  | String c s' => if is_space c then lstrip s' else s
  | "" => ""
  end.

Fixpoint rstrip (s : string) : string :=
  match s with
  | "" => ""
  | String c s' =>
      match rstrip s' with
      | "" => if is_space c then "" else String c ""
      | t => String c t
      end
  end.

Definition strip (s : string) : string := rstrip (lstrip s).

(** [s.lstrip(chars)] for a one-character [chars]. *)
Fixpoint lstrip_char (x : ascii) (s : string) : string :=
  match s with
  | String c s' => if Ascii.eqb c x then lstrip_char x s' else s
  | "" => ""
  end.

(** [s.splitlines()]: CR LF is one boundary, and a boundary at the very
    end opens no further line. *)
Fixpoint splitlines (s : string) : list string :=
  match s with
  | "" => []
  | String c s' =>
      if is_linebreak c then
        "" :: match s' with
              | String c2 s'' =>
                  if Ascii.eqb c CR && Ascii.eqb c2 LF then splitlines s''
                  else splitlines s'
              | "" => []
              end
      else match splitlines s' with
           | l :: ls => String c l :: ls
           | [] => [String c ""]
           end
  end.

(** [sep.join(ls)]. *)
Definition join (sep : string) (ls : list string) : string :=
  String.concat sep ls.

(** [needle in hay] on strings. *)
Fixpoint contains (needle hay : string) : bool :=
  String.prefix needle hay
  || match hay with
     | String _ hay' => contains needle hay'
     | "" => false
     end.

(** [c * n] for a one-character string. *)
Fixpoint replicate (n : nat) (c : ascii) : string :=
  match n with
  | O => ""
  | S k => String c (replicate k c)
  end.

End Str.

(** ** The regular expressions, as backtracking matchers

    Each matcher follows [re]'s search order: a greedy repetition tries the
    longest run first and gives characters back one at a time, a lazy one
    tries the shortest first, an alternation tries its branches from left
    to right, and [re.search] takes the leftmost start that matches. *)

Module Re.

(** [cls+] followed by the continuation [k], which receives the text
    the repetition matched and what is left. *)
Fixpoint greedy_plus {A} (cls : ascii -> bool) (s : string)
    (k : string -> string -> option A) : option A :=
  match s with
  | String c s' =>
      if cls c then
        match greedy_plus cls s' (fun m r => k (String c m) r) with
        | Some x => Some x
        | None => k (String c "") s'
        end
      else None
  | "" => None
  end.

(** [.*?] (with DOTALL) followed by the continuation [k]. *)
Fixpoint lazy_any {A} (s : string) (k : string -> option A) : option A :=
  match k s with
  | Some x => Some x
  | None => match s with
            | String _ s' => lazy_any s' k
            | "" => None
            end
  end.

(** [(a|b)] on literals, followed by the continuation [k]. *)
Definition alt_lit {A} (a b : string) (s : string)
    (k : string -> option A) : option A :=
  match match Str.lit a s with Some r => k r | None => None end with
  | Some x => Some x
  | None => match Str.lit b s with Some r => k r | None => None end
  end.

Definition digit_or_dot (c : ascii) : bool :=
  Str.is_digit c || Ascii.eqb c "."%char.

Definition word_or_hyphen (c : ascii) : bool :=
  Str.is_word c || Ascii.eqb c "-"%char.

(** [scarb-v[\d\.]+-([\w-]+)\.(tar\.gz|zip)] anchored at the start of
    [s]; the result is group 1. *)
Definition asset_name_at (s : string) : option string :=
  match Str.lit "scarb-v" s with
  | None => None
  | Some s1 =>
      greedy_plus digit_or_dot s1 (fun _ s2 =>
        match Str.lit "-" s2 with
        | None => None
        | Some s3 =>
            greedy_plus word_or_hyphen s3 (fun platform s4 =>
              match Str.lit "." s4 with
              | None => None
              | Some s5 => alt_lit "tar.gz" "zip" s5 (fun _ => Some platform)
              end)
        end)
  end.

(** [re.search(r'scarb-v[\d\.]+-([\w-]+)\.(tar\.gz|zip)', s)], giving
    [match.group(1)]. *)
Fixpoint search_asset_name (s : string) : option string :=
  match asset_name_at s with
  | Some g => Some g
  | None => match s with
            | String _ s' => search_asset_name s'
            | "" => None
            end
  end.

(** [<!--.*?-->] anchored at the start of [s]; the result is what
    follows the match. *)
Definition comment_at (s : string) : option string :=
  match Str.lit "<!--" s with
  | None => None
  | Some s1 => lazy_any s1 (fun r => Str.lit "-->" r)
  end.

(** [re.sub(r'<!--.*?-->', '', s, flags=re.DOTALL)]. [skip] counts the
    characters of a match that are still to be passed over. *)
Fixpoint sub_comments_from (skip : nat) (s : string) : string :=
  match s with
  | "" => ""
  | String c s' =>
      match skip with
      | S k => sub_comments_from k s'
      | O =>
          match comment_at s with
          | Some rest =>
              sub_comments_from (String.length s' - String.length rest) s'
          | None => String c (sub_comments_from O s')
          end
      end
  end.

Definition sub_comments (s : string) : string := sub_comments_from O s.

End Re.

(** ** The pure helpers of the script *)

(** [parse_checksums]: the body of the [for line in text.split('\n')] loop.
    [checksum, filename = parts] raises [ValueError] unless [parts] has
    exactly two elements. *)
Definition parse_line (checksums : gmap string string) (line : string)
    : result (gmap string string) :=
  if Str.is_empty (Str.strip line) then Ok checksums
  else
    let parts := Str.split line in
    if (2 <=? length parts)%nat then
      match parts with
      | [checksum; filename] =>
          match Re.search_asset_name filename with
          | Some platform => Ok (<[platform := checksum]> checksums)
          | None => Ok checksums
          end
      | _ => Raise ValueError
      end
    else Ok checksums.

Fixpoint parse_lines (checksums : gmap string string) (lines : list string)
    : result (gmap string string) :=
  match lines with
  | [] => Ok checksums
  | line :: rest =>
      match parse_line checksums line with
      | Ok checksums' => parse_lines checksums' rest
      | Raise e => Raise e
      end
  end.

Definition parse_checksums (text version_tag : string)
    : result (gmap string string) :=
  parse_lines ∅ (Str.split_on Str.LF text).

(** [process_changelog]: [None] is Python's [None]. *)
Definition process_changelog (body : option string) : option string :=
  match body with
  | None => None
  | Some "" => None
  | Some body =>
      let body := Re.sub_comments body in
      let body := Str.join Str.nl (map Str.rstrip (Str.splitlines body)) in
      let body := Str.strip body in
      if Str.is_empty body then None else Some body
  end.

(** ** JSON documents

    The values [json.load] gives and [json.dump] takes: [None], [bool],
    [int], [str], [list] and [dict] with [str] keys. *)

Inductive json : Type :=
  | JNull
  | JBool (b : bool)
  | JInt (z : Z)
  | JStr (s : string)
  | JArr (l : list json)
  | JObj (m : gmap string json).

Module Py.

(** [len(v)] *)
Definition len (v : json) : result Z :=
  match v with
  | JStr s => Ok (Z.of_nat (String.length s))
  | JArr l => Ok (Z.of_nat (length l))
  | JObj m => Ok (Z.of_nat (size m))
  | _ => Raise TypeError
  end.

(** [v == s] for a string [s] *)
Definition eq_str (v : json) (s : string) : bool :=
  match v with
  | JStr t => String.eqb t s
  | _ => false
  end.

(** [key in v] for a string [key] *)
Definition contains (key : string) (v : json) : result bool :=
  match v with
  | JObj m => Ok (bool_decide (is_Some (m !! key)))
  | JArr l => Ok (existsb (fun x => eq_str x key) l)
  | JStr s => Ok (Str.contains key s)
  | _ => Raise TypeError
  end.

(** [v[key]] for a string [key] *)
Definition getitem (v : json) (key : string) : result json :=
  match v with
  | JObj m => match m !! key with
              | Some x => Ok x
              | None => Raise KeyError
              end
  | _ => Raise TypeError
  end.

(** [str(z)] *)
Definition str_of_int (z : Z) : string :=
  NilEmpty.string_of_int (Z.to_int z).

End Py.

(** ** [json.dump(obj, f, indent=2, sort_keys=True)] *)

Module Json.

Definition DQUOTE : ascii := "034"%char.
Definition BACKSLASH : ascii := "092"%char.

Definition hex_digit (n : N) : ascii :=
  if (n <? 10)%N then ascii_of_N (48 + n) else ascii_of_N (87 + n).

(** The encoder's [ensure_ascii] escapes: everything outside
    SPACE..TILDE, the quote and the backslash. *)
Definition escape_char (c : ascii) : string :=
  let n := Str.code c in
  if Ascii.eqb c DQUOTE then String BACKSLASH (String DQUOTE "")
  else if Ascii.eqb c BACKSLASH then String BACKSLASH (String BACKSLASH "")
  else if (n =? 10)%N then String BACKSLASH "n"
  else if (n =? 13)%N then String BACKSLASH "r"
  else if (n =? 9)%N then String BACKSLASH "t"
  else if (n =? 12)%N then String BACKSLASH "f"
  else if (n =? 8)%N then String BACKSLASH "b"
  else if Str.between 32 126 c then String c ""
  else String BACKSLASH
         (String "u" (String "0" (String "0"
           (String (hex_digit (n / 16)) (String (hex_digit (n mod 16)) ""))))).

Fixpoint escape (s : string) : string :=
  match s with
  | "" => ""
  | String c s' => escape_char c +:+ escape s'
  end.

Definition quote (s : string) : string :=
  String DQUOTE (escape s +:+ String DQUOTE "").

Definition key_le (a b : string * string) : Prop :=
  String.leb (fst a) (fst b) = true.

#[global] Instance key_le_dec a b : Decision (key_le a b).
Proof. unfold key_le. apply _. Defined.

(** [sorted(dct.items())] *)
Definition sorted_items (m : gmap string string) : list (string * string) :=
  merge_sort key_le (map_to_list m).

Definition newline_indent (level : nat) : string :=
  Str.nl +:+ Str.replicate (2 * level) " "%char.

Definition render_seq (level : nat) (opening closing : string)
    (items : list string) : string :=
  match items with
  | [] => opening +:+ closing
  | _ =>
      opening +:+ newline_indent (S level)
      +:+ Str.join (String "," (newline_indent (S level))) items
      +:+ newline_indent level +:+ closing
  end.

Definition render_item (kv : string * string) : string :=
  quote (fst kv) +:+ ": " +:+ snd kv.

Fixpoint dumps_at (level : nat) (v : json) : string :=
  match v with
  | JNull => "null"
  | JBool true => "true"
  | JBool false => "false"
  | JInt z => Py.str_of_int z
  | JStr s => quote s
  | JArr l => render_seq level "[" "]" (map (dumps_at (S level)) l)
  | JObj m =>
      render_seq level "{" "}"
        (map render_item (sorted_items (dumps_at (S level) <$> m)))
  end.

Definition dumps (v : json) : string := dumps_at 0 v.

End Json.

(** ** A reference [json.load]

    A decoder for the documents above: JSON whose numbers are integers and
    whose strings stay below code point 256. Anything else is refused. *)

Module JsonLoad.

Definition is_ws (c : ascii) : bool :=
  let n := Str.code c in
  ((n =? 32) || (n =? 9) || (n =? 10) || (n =? 13))%N.

Fixpoint skip_ws (s : string) : string :=
  match s with
  | String c s' => if is_ws c then skip_ws s' else s
  | "" => ""
  end.

Definition hex_value (c : ascii) : option N :=
  let n := Str.code c in
  if Str.between 48 57 c then Some (n - 48)%N
  else if Str.between 97 102 c then Some (n - 87)%N
  else if Str.between 65 70 c then Some (n - 55)%N
  else None.

(** [\uXXXX] for a code point below 256. *)
Definition unicode_escape (h1 h2 h3 h4 : ascii) : option ascii :=
  match hex_value h1, hex_value h2, hex_value h3, hex_value h4 with
  | Some 0%N, Some 0%N, Some a, Some b => Some (ascii_of_N (16 * a + b))
  | _, _, _, _ => None
  end.

Definition simple_escape (c : ascii) : option ascii :=
  if Ascii.eqb c Json.DQUOTE then Some Json.DQUOTE
  else if Ascii.eqb c Json.BACKSLASH then Some Json.BACKSLASH
  else if Ascii.eqb c "/" then Some "/"%char
  else if Ascii.eqb c "b" then Some "008"%char
  else if Ascii.eqb c "f" then Some "012"%char
  else if Ascii.eqb c "n" then Some "010"%char
  else if Ascii.eqb c "r" then Some "013"%char
  else if Ascii.eqb c "t" then Some "009"%char
  else None.

(** A string, from behind its opening quote to its closing one. *)
Fixpoint string_body (s : string) : option (string * string) :=
  match s with
  | "" => None
  | String c s' =>
      if Ascii.eqb c Json.DQUOTE then Some ("", s')
      else if Ascii.eqb c Json.BACKSLASH then
        match s' with
        | String e s'' =>
            if Ascii.eqb e "u" then
              match s'' with
              | String h1 (String h2 (String h3 (String h4 s4))) =>
                  match unicode_escape h1 h2 h3 h4, string_body s4 with
                  | Some x, Some (t, r) => Some (String x t, r)
                  | _, _ => None
                  end
              | _ => None
              end
            else
              match simple_escape e, string_body s'' with
              | Some x, Some (t, r) => Some (String x t, r)
              | _, _ => None
              end
        | "" => None
        end
      else if (Str.code c <? 32)%N then None
      else
        match string_body s' with
        | Some (t, r) => Some (String c t, r)
        | None => None
        end
  end.

Definition is_num_char (c : ascii) : bool :=
  Str.is_digit c || Ascii.eqb c "-".

Definition is_frac_char (c : ascii) : bool :=
  Ascii.eqb c "." || Ascii.eqb c "e" || Ascii.eqb c "E".

Fixpoint span (p : ascii → bool) (s : string) : string * string :=
  match s with
  | String c s' =>
      if p c then let '(a, b) := span p s' in (String c a, b) else ("", s)
  | "" => ("", "")
  end.

(** Whether [s] goes on with a fraction or an exponent. *)
Definition starts_fraction (s : string) : bool :=
  match s with
  | String c _ => is_frac_char c
  | "" => false
  end.

(** An integer in the form [str] prints it (and [-0]). *)
Definition number (s : string) : option (Z * string) :=
  let '(tok, rest) := span is_num_char s in
  if starts_fraction rest then None
  else
    match NilEmpty.int_of_string tok with
    | Some d =>
        let z := Z.of_int d in
        if String.eqb (Py.str_of_int z) tok || String.eqb tok "-0"
        then Some (z, rest) else None
    | None => None
    end.

Section Composite.

Variable value : string → option (json * string).

(** The elements of an array, from the first one to the closing bracket. *)
Fixpoint elements (fuel : nat) (s : string) : option (list json * string) :=
  match fuel with
  | O => None
  | S f =>
      match value s with
      | Some (v, r) =>
          match skip_ws r with
          | String c r' =>
              if Ascii.eqb c "," then
                match elements f r' with
                | Some (vs, r'') => Some (v :: vs, r'')
                | None => None
                end
              else if Ascii.eqb c "]" then Some ([v], r')
              else None
          | "" => None
          end
      | None => None
      end
  end.

(** The members of an object, from the first key to the closing brace. *)
Fixpoint members (fuel : nat) (s : string)
    : option (list (string * json) * string) :=
  match fuel with
  | O => None
  | S f =>
      match skip_ws s with
      | String q s1 =>
          if Ascii.eqb q Json.DQUOTE then
            match string_body s1 with
            | Some (key, s2) =>
                match skip_ws s2 with
                | String c s3 =>
                    if Ascii.eqb c ":" then
                      match value s3 with
                      | Some (v, r) =>
                          match skip_ws r with
                          | String d r' =>
                              if Ascii.eqb d "," then
                                match members f r' with
                                | Some (kvs, r'') => Some ((key, v) :: kvs, r'')
                                | None => None
                                end
                              else if Ascii.eqb d "}" then Some ([(key, v)], r')
                              else None
                          | "" => None
                          end
                      | None => None
                      end
                    else None
                | "" => None
                end
            | None => None
            end
          else None
      | "" => None
      end
  end.

End Composite.

(** A [dict] from its members in the order read: a repeated key keeps its
    last value. *)
Definition dict_of (kvs : list (string * json)) : gmap string json :=
  list_to_map (reverse kvs).

Fixpoint value (fuel : nat) (s : string) : option (json * string) :=
  match fuel with
  | O => None
  | S f =>
      match skip_ws s with
      | "" => None
      | String c s' =>
          if Ascii.eqb c "n" then
            match Str.lit "ull" s' with Some r => Some (JNull, r) | None => None end
          else if Ascii.eqb c "t" then
            match Str.lit "rue" s' with
            | Some r => Some (JBool true, r)
            | None => None
            end
          else if Ascii.eqb c "f" then
            match Str.lit "alse" s' with
            | Some r => Some (JBool false, r)
            | None => None
            end
          else if Ascii.eqb c Json.DQUOTE then
            match string_body s' with
            | Some (t, r) => Some (JStr t, r)
            | None => None
            end
          else if Ascii.eqb c "[" then
            match skip_ws s' with
            | String d r =>
                if Ascii.eqb d "]" then Some (JArr [], r)
                else match elements (value f) f s' with
                     | Some (vs, r') => Some (JArr vs, r')
                     | None => None
                     end
            | "" => None
            end
          else if Ascii.eqb c "{" then
            match skip_ws s' with
            | String d r =>
                if Ascii.eqb d "}" then Some (JObj ∅, r)
                else match members (value f) f s' with
                     | Some (kvs, r') => Some (JObj (dict_of kvs), r')
                     | None => None
                     end
            | "" => None
            end
          else if is_num_char c then
            match number (String c s') with
            | Some (z, r) => Some (JInt z, r)
            | None => None
            end
          else None
      end
  end.

(** [json.loads]: one value, and nothing but white space behind it. *)
Definition loads (s : string) : option json :=
  match value (S (String.length s)) s with
  | Some (v, r) => if Str.is_empty (skip_ws r) then Some v else None
  | None => None
  end.

End JsonLoad.

(** ** [pathlib] and [datetime] *)

Module Pathlib.

(** A relative path: the directory part (empty for the working
    directory) and the final component. *)
Record path : Type := Path { parent : string; name : string }.

Definition str (p : path) : string :=
  if Str.is_empty (parent p) then name p else parent p +:+ "/" +:+ name p.

Fixpoint rfind (c : ascii) (s : string) : option nat :=
  match s with
  | "" => None
  | String a s' =>
      match rfind c s' with
      | Some i => Some (S i)
      | None => if Ascii.eqb a c then Some O else None
      end
  end.

Fixpoint take (n : nat) (s : string) : string :=
  match n, s with
  | S k, String c s' => String c (take k s')
  | _, _ => ""
  end.

(** [PurePath.suffix] *)
Definition suffix (p : path) : string :=
  match rfind "."%char (name p) with
  | Some i =>
      if ((0 <? i) && (i <? String.length (name p) - 1))%nat
      then Str.drop i (name p) else ""
  | None => ""
  end.

(** [PurePath.with_suffix] *)
Definition with_suffix (p : path) (sfx : string) : result path :=
  if Str.contains "/" sfx then Raise ValueError
  else if (negb (Str.is_empty sfx) && negb (String.prefix "." sfx))
          || String.eqb sfx "." then Raise ValueError
  else if Str.is_empty (name p) then Raise ValueError
  else
    let old_suffix := suffix p in
    Ok (Path (parent p)
          (take (String.length (name p) - String.length old_suffix) (name p)
           +:+ sfx)).

End Pathlib.

Module Datetime.

Record datetime : Type := {
  year : nat; month : nat; day : nat;
  hour : nat; minute : nat; second : nat
}.

Definition digit (n : nat) : ascii := ascii_of_nat (48 + n mod 10).

Definition pad2 (n : nat) : string :=
  String (digit (n / 10)) (String (digit n) "").

Definition pad4 (n : nat) : string := pad2 (n / 100) +:+ pad2 n.

(** [strftime("%Y%m%d_%H%M%S")], for years 1000..9999. *)
Definition strftime (t : datetime) : string :=
  pad4 (year t) +:+ pad2 (month t) +:+ pad2 (day t) +:+ "_"
  +:+ pad2 (hour t) +:+ pad2 (minute t) +:+ pad2 (second t).

End Datetime.

(** ** What the release API returns *)

Record Asset : Type := {
  a_name : string;
  a_browser_download_url : string;
  a_size : Z;
  a_download_count : Z;
  a_created_at : string;
  a_updated_at : string
}.

Record Release : Type := {
  r_tag_name : string;
  r_draft : bool;
  r_prerelease : bool;
  r_published_at : string;
  r_body : option string;
  r_assets : list Asset
}.

(** ** The outside world *)

(** What the script reads: the reply to the release-list request
    ([None]: the request raises [RequestException]), the reply to a
    request for the text at a URL, and the clock. *)
Record Env : Type := {
  releases_reply : option (list Release);
  text_reply : string -> option string;
  now : Datetime.datetime
}.

(** What the script changes: the regular files, by path, and the URLs it
    has requested, oldest first. *)
Record World : Type := {
  fs : gmap string string;
  requested : list string
}.

Definition M (A : Type) : Type := World -> result A * World.

#[global] Instance M_ret : MRet M := fun A a w => (Ok a, w).
#[global] Instance M_bind : MBind M := fun A B f m w =>
  match m w with
  | (Ok a, w') => f a w'
  | (Raise e, w') => (Raise e, w')
  end.

(** A computation that only raises or returns. *)
Definition lift {A} (r : result A) : M A := fun w => (r, w).

#[global] Instance result_ret : MRet result := fun A a => Ok a.
#[global] Instance result_bind : MBind result := fun A B f m =>
  match m with
  | Ok a => f a
  | Raise e => Raise e
  end.

Definition requests_get (url : string) : M unit :=
  fun w => (Ok tt, {| fs := fs w; requested := requested w ++ [url] |}).

Definition path_exists (p : Pathlib.path) : M bool :=
  fun w => (Ok (bool_decide (is_Some (fs w !! Pathlib.str p))), w).

Definition path_rename (src dst : Pathlib.path) : M unit :=
  fun w =>
    match fs w !! Pathlib.str src with
    | Some content =>
        (Ok tt, {| fs := <[Pathlib.str dst := content]>
                           (delete (Pathlib.str src) (fs w));
                   requested := requested w |})
    | None => (Raise FileNotFoundError, w)
    end.

Definition write_text (p : Pathlib.path) (text : string) : M unit :=
  fun w => (Ok tt, {| fs := <[Pathlib.str p := text]> (fs w);
                      requested := requested w |}).

(** [Path.mkdir(exist_ok=True)]: directories are not tracked, so the call
    fails exactly when a regular file has the name. *)
Definition mkdir_exist_ok (p : Pathlib.path) : M unit :=
  fun w =>
    match fs w !! Pathlib.str p with
    | Some _ => (Raise FileExistsError, w)
    | None => (Ok tt, w)
    end.

(** ** The script *)

Definition api_url : string :=
  "https://api.github.com/repos/software-mansion/scarb/releases".

Definition fetch_releases (env : Env) : M (list Release) :=
  _ ← requests_get api_url;
  match releases_reply env with
  | Some releases => mret releases
  | None => lift (Raise RequestException)
  end.

Definition asset_info (asset : Asset) : json :=
  JObj (<["url" := JStr (a_browser_download_url asset)]>
       (<["size" := JInt (a_size asset)]>
       (<["download_count" := JInt (a_download_count asset)]>
       (<["created_at" := JStr (a_created_at asset)]>
       (<["updated_at" := JStr (a_updated_at asset)]> ∅))))).

Definition get_asset_info (release : Release) : gmap string json :=
  foldl (fun assets asset => <[a_name asset := asset_info asset]> assets)
        ∅ (r_assets release).

Definition checksums_url (version_tag : string) : string :=
  "https://github.com/software-mansion/scarb/releases/download/"
  +:+ version_tag +:+ "/checksums.sha256".

(** [None] is the script's [None]: the manifest request failed. *)
Definition get_version_checksums (env : Env) (version_tag : string)
    : M (option (gmap string string)) :=
  _ ← requests_get (checksums_url version_tag);
  match text_reply env (checksums_url version_tag) with
  | Some text =>
      checksums ← lift (parse_checksums text version_tag);
      mret (Some checksums)
  | None => mret None
  end.

Record Progress : Type := {
  versions : gmap string json;
  processed_count : Z;
  skipped_count : Z
}.

(** [sum(asset['download_count'] for asset in release['assets'])] *)
Definition download_total (release : Release) : Z :=
  foldl (fun acc asset => acc + a_download_count asset) 0 (r_assets release).

Definition changelog_json (release : Release) : json :=
  match process_changelog (r_body release) with
  | Some text => JStr text
  | None => JNull
  end.

(** The ["metadata"] of the record built for a release. *)
Definition release_metadata (release : Release) : json :=
  JObj (<["releaseDate" := JStr (r_published_at release)]>
       (<["prerelease" := JBool (r_prerelease release)]>
       (<["draft" := JBool (r_draft release)]>
       (<["changelog" := changelog_json release]>
       (<["downloadCount" := JInt (download_total release)]>
       (<["assets" := JObj (get_asset_info release)]> ∅)))))).

(** The record built for a release whose checksums were obtained. *)
Definition fresh_record (release : Release) (checksums : gmap string string)
    : json :=
  JObj (<["hashes" := JObj (JStr <$> checksums)]>
       (<["metadata" := release_metadata release]> ∅)).

(** Lines 140-149: the stored record when [version] is in
    [current_versions] with the release date [current_date]. *)
Definition up_to_date (current_versions : json) (version current_date : string)
    : result (option json) :=
  known ← Py.contains version current_versions;
  if known : bool then
    stored ← Py.getitem current_versions version;
    metadata ← Py.getitem stored "metadata";
    existing_date ← Py.getitem metadata "releaseDate";
    if Py.eq_str existing_date current_date then mret (Some stored)
    else mret None
  else mret None.

(** [version = release['tag_name'].lstrip('v')] *)
Definition version_key (tag : string) : string := Str.lstrip_char "v"%char tag.

Definition version_of (release : Release) : string :=
  version_key (r_tag_name release).

(** [skipped_count += 1] *)
Definition count_skipped (st : Progress) : Progress :=
  {| versions := versions st;
     processed_count := processed_count st;
     skipped_count := skipped_count st + 1 |}.

(** [versions[version] = record; processed_count += 1] *)
Definition store (st : Progress) (version : string) (record : json) : Progress :=
  {| versions := <[version := record]> (versions st);
     processed_count := processed_count st + 1;
     skipped_count := skipped_count st |}.

(** The body of [for release in releases]. [if checksums:] is false for
    [None] and for the empty dictionary. *)
Definition process_release (env : Env) (current_versions : json)
    (st : Progress) (release : Release) : M Progress :=
  let version := version_of release in
  if r_draft release then mret (count_skipped st)
  else
    reuse ← lift (up_to_date current_versions version (r_published_at release));
    match reuse with
    | Some stored => mret (store st version stored)
    | None =>
        checksums ← get_version_checksums env (r_tag_name release);
        match checksums with
        | Some c =>
            if bool_decide (c = ∅) then mret (count_skipped st)
            else mret (store st version (fresh_record release c))
        | None => mret (count_skipped st)
        end
    end.

Fixpoint process_releases (env : Env) (current_versions : json)
    (st : Progress) (releases : list Release) : M Progress :=
  match releases with
  | [] => mret st
  | release :: rest =>
      st' ← process_release env current_versions st release;
      process_releases env current_versions st' rest
  end.

Definition start : Progress :=
  {| versions := ∅; processed_count := 0; skipped_count := 0 |}.

Section Script.

(** [json.load] on the text of a file; [None] when it raises. *)
Variable json_load : string -> option json.

Definition load_current_versions (versions_file : Pathlib.path) : M json :=
  fun w =>
    match fs w !! Pathlib.str versions_file with
    | Some text =>
        match json_load text with
        | Some v => (Ok v, w)
        | None => (Ok (JObj ∅), w)
        end
    | None => (Ok (JObj ∅), w)
    end.

Definition backup_suffix (env : Env) : string :=
  ".json.bak-" +:+ Datetime.strftime (now env).

Definition update_versions_file (env : Env) (versions_file : Pathlib.path)
    : M unit :=
  current_versions ← load_current_versions versions_file;
  current_count ← lift (Py.len current_versions);
  releases ← fetch_releases env;
  st ← process_releases env current_versions start releases;
  _ ← mkdir_exist_ok (Pathlib.Path "" "versions");
  there ← path_exists versions_file;
  _ ← (if there : bool then
         backup_path ← lift (Pathlib.with_suffix versions_file
                               (backup_suffix env));
         path_rename versions_file backup_path
       else mret tt);
  write_text versions_file (Json.dumps (JObj (versions st))).

Definition versions_path : Pathlib.path :=
  Pathlib.Path "versions" "versions.json".

(** [main]: the exit status and the world it leaves. *)
Definition main (env : Env) (w : World) : Z * World :=
  match update_versions_file env versions_path w with
  | (Ok _, w') => (0, w')
  | (Raise _, w') => (1, w')
  end.

End Script.

(** ** The files of a run *)

Definition target : string := "versions/versions.json".

Definition backup_name (env : Env) : string :=
  "versions/versions.json.bak-" +:+ Datetime.strftime (now env).

(** The files after the rename-aside and the write of [text]. *)
Definition persist (files : gmap string string) (backup text : string)
    : gmap string string :=
  match files !! target with
  | Some old => <[target := text]> (<[backup := old]> (delete target files))
  | None => <[target := text]> files
  end.

(** What [load_current_versions] returns for the files [files]. *)
Definition current (json_load : string → option json)
    (files : gmap string string) : json :=
  match files !! target with
  | Some text =>
      match json_load text with
      | Some v => v
      | None => JObj ∅
      end
  | None => JObj ∅
  end.

(** ** The loop, seen from outside

    Pure descriptions of what the loop does, related to the monadic code by
    the lemmas of the second part. *)

(** The world after a request for [url]. *)
Definition logged (url : string) (w : World) : World :=
  {| fs := fs w; requested := requested w ++ [url] |}.

(** What the checksum resolver leads to for a release: [Ok (Some v)] when
    the fresh record [v] is stored, [Ok None] when the release is skipped. *)
Definition resolve (env : Env) (r : Release) : result (option json) :=
  match text_reply env (checksums_url (r_tag_name r)) with
  | Some text =>
      match parse_checksums text (r_tag_name r) with
      | Ok c => if bool_decide (c = ∅) then Ok None
                else Ok (Some (fresh_record r c))
      | Raise e => Raise e
      end
  | None => Ok None
  end.

(** What one iteration decides, apart from the bookkeeping: [Ok (Some v)]
    when [v] is put under the release's key, [Ok None] when the release is
    skipped. *)
Definition outcome (env : Env) (cur : json) (r : Release)
    : result (option json) :=
  if r_draft r then Ok None
  else
    match up_to_date cur (version_of r) (r_published_at r) with
    | Raise e => Raise e
    | Ok (Some stored) => Ok (Some stored)
    | Ok None => resolve env r
    end.

Definition apply_outcome (st : Progress) (r : Release) (o : option json)
    : Progress :=
  match o with
  | Some v => store st (version_of r) v
  | None => count_skipped st
  end.

(** The releases on which the loop calls the checksum resolver. *)
Definition resolved (cur : json) (r : Release) : bool :=
  negb (r_draft r)
  && match up_to_date cur (version_of r) (r_published_at r) with
     | Ok None => true
     | _ => false
     end.

Definition count_drafts (rs : list Release) : Z :=
  Z.of_nat (length (filter (λ r, r_draft r = true) rs)).

(** The output mapping of the loop, from the outcomes alone. *)
Fixpoint merge (env : Env) (cur : json) (vs : gmap string json)
    (rs : list Release) : result (gmap string json) :=
  match rs with
  | [] => Ok vs
  | r :: rest =>
      match outcome env cur r with
      | Ok (Some v) => merge env cur (<[version_of r := v]> vs) rest
      | Ok None => merge env cur vs rest
      | Raise e => Raise e
      end
  end.

(** The record the loop leaves under [k]: what the last release with that
    key and a record to store stores. *)
Fixpoint last_write (env : Env) (cur : json) (k : string)
    (rs : list Release) : option json :=
  match rs with
  | [] => None
  | r :: rest =>
      match last_write env cur k rest with
      | Some v => Some v
      | None =>
          if decide (version_of r = k) then
            match outcome env cur r with
            | Ok (Some v) => Some v
            | _ => None
            end
          else None
      end
  end.

(** [record['metadata']['releaseDate']] *)
Definition release_date (record : json) : result json :=
  metadata ← Py.getitem record "metadata";
  Py.getitem metadata "releaseDate".

(** The mapping a run writes, when it gets as far as writing. *)
Definition plan (json_load : string → option json) (env : Env)
    (files : gmap string string) : option (gmap string json) :=
  match Py.len (current json_load files) with
  | Raise _ => None
  | Ok _ =>
      match releases_reply env with
      | None => None
      | Some rs =>
          match merge env (current json_load files) ∅ rs with
          | Raise _ => None
          | Ok vs =>
              match files !! "versions" with
              | Some _ => None
              | None => Some vs
              end
          end
      end
  end.

(** The same upstream at another time. *)
Definition at_time (env : Env) (t : Datetime.datetime) : Env :=
  {| releases_reply := releases_reply env;
     text_reply := text_reply env;
     now := t |}.

(** ** Measures and shapes for the decoder *)

(** The number of nodes of a document. *)
Fixpoint json_size (v : json) : nat :=
  match v with
  | JArr l => S (foldr (λ x n, json_size x + n)%nat O l)
  | JObj m => S (map_fold (λ _ x n, json_size x + n)%nat O m)
  | _ => 1
  end.

(** What may follow a printed integer: no digit, sign, point or exponent. *)
Definition ok_rest (rest : string) : Prop :=
  match rest with
  | "" => True
  | String c _ =>
      JsonLoad.is_num_char c = false ∧ JsonLoad.is_frac_char c = false
  end.

(** The characters a printed integer can start with. *)
Definition num_starts : list ascii :=
  ["-"; "0"; "1"; "2"; "3"; "4"; "5"; "6"; "7"; "8"; "9"]%char.

(** The characters a printed value can start with. *)
Definition value_starts : list ascii :=
  ["n"; "t"; "f"; Json.DQUOTE; "["; "{"]%char ++ num_starts.

(** [v] is read back from its encoding at any indentation, before any text
    that cannot continue a number, with fuel beyond the length of the text. *)
Definition reads_back (v : json) : Prop :=
  ∀ l rest fuel,
    ok_rest rest →
    (String.length (Json.dumps_at l v +:+ rest) < fuel)%nat →
    JsonLoad.value fuel (Json.dumps_at l v +:+ rest) = Some (v, rest).

(** ** Sample data *)

(** The changelog body of the specification's example. *)
Definition changelog_example : string :=
  "before" +:+ Str.nl +:+ "<!-- hidden -->" +:+ Str.nl +:+ "after  " +:+ Str.nl.

(** The manifest line of the specification's example. *)
Definition manifest_example : string :=
  "abcd1234 scarb-v1.2.3-x86_64-linux.tar.gz".

(** A manifest in the tagged format of [shasum --tag]: four tokens a line. *)
Definition tagged_manifest : string :=
  "SHA256 (scarb-v1.2.3-x86_64-linux.tar.gz) = abcd1234".

Definition sample_clock : Datetime.datetime :=
  {| Datetime.year := 2024; Datetime.month := 3; Datetime.day := 9;
     Datetime.hour := 7; Datetime.minute := 5; Datetime.second := 0 |}.

(** A later moment than [sample_clock]. *)
Definition later_clock : Datetime.datetime :=
  {| Datetime.year := 2024; Datetime.month := 3; Datetime.day := 9;
     Datetime.hour := 7; Datetime.minute := 6; Datetime.second := 30 |}.

Definition linux_asset : Asset :=
  {| a_name := "scarb-v1.2.3-x86_64-linux.tar.gz";
     a_browser_download_url :=
       "https://github.com/software-mansion/scarb/releases/download/v1.2.3/scarb-v1.2.3-x86_64-linux.tar.gz";
     a_size := 1024;
     a_download_count := 3;
     a_created_at := "2024-01-02T03:00:00Z";
     a_updated_at := "2024-01-02T03:00:01Z" |}.

(** The published release tagged [v1.2.3]. *)
Definition release_123 : Release :=
  {| r_tag_name := "v1.2.3";
     r_draft := false;
     r_prerelease := false;
     r_published_at := "2024-01-02T03:04:05Z";
     r_body := Some changelog_example;
     r_assets := [linux_asset] |}.

(** A draft tagged [1.2.3], without the [v]. *)
Definition draft_123 : Release :=
  {| r_tag_name := "1.2.3";
     r_draft := true;
     r_prerelease := false;
     r_published_at := "";
     r_body := None;
     r_assets := [] |}.

(** An older published release, tagged [v0.9.0]. *)
Definition release_090 : Release :=
  {| r_tag_name := "v0.9.0";
     r_draft := false;
     r_prerelease := false;
     r_published_at := "2023-11-12T10:00:00Z";
     r_body := None;
     r_assets := [] |}.

(** An upstream that lists [releases] and serves [manifest] as the checksum
    file of [v1.2.3] and nothing else. *)
Definition upstream (releases : list Release) (manifest : option string) : Env :=
  {| releases_reply := Some releases;
     text_reply := λ url,
       if String.eqb url (checksums_url "v1.2.3") then manifest else None;
     now := sample_clock |}.

(** An upstream whose release list cannot be fetched. *)
Definition unreachable : Env :=
  {| releases_reply := None; text_reply := λ _, None; now := sample_clock |}.

Definition empty_world : World := {| fs := ∅; requested := [] |}.

(** A world with a versions file that is not JSON. *)
Definition world_with_file : World :=
  {| fs := {[ target := "old" ]}; requested := [] |}.

(** A loader that takes nothing for JSON. *)
Definition no_json : string → option json := λ _, None.

(** The record of [release_123] as a previous run stored it. *)
Definition stored_123 : json :=
  fresh_record release_123 {[ "x86_64-linux" := "abcd1234" ]}.

(** A record of [release_090] stored by a previous run. *)
Definition stored_090 : json :=
  fresh_record release_090 {[ "x86_64-linux" := "0000ffff" ]}.

(** ** Shapes of texts, for the further properties *)

(** Every character of [s] satisfies [p]. *)
Fixpoint all_chars (p : ascii → bool) (s : string) : bool :=
  match s with
  | "" => true
  | String c s' => p c && all_chars p s'
  end.

(** [s] starts with a character that satisfies [p]. *)
Definition head_in (p : ascii → bool) (s : string) : bool :=
  match s with
  | String c _ => p c
  | "" => false
  end.

(** The name of a release archive. *)
Definition asset_file_name (version platform extension : string) : string :=
  "scarb-v" +:+ version +:+ "-" +:+ platform +:+ "." +:+ extension.

(** A character that is not white space. *)
Definition not_space (c : ascii) : bool := negb (Str.is_space c).

(** A second archive of [v1.2.3]. *)
Definition windows_asset : Asset :=
  {| a_name := "scarb-v1.2.3-x86_64-pc-windows-msvc.zip";
     a_browser_download_url :=
       "https://github.com/software-mansion/scarb/releases/download/v1.2.3/scarb-v1.2.3-x86_64-pc-windows-msvc.zip";
     a_size := 2048;
     a_download_count := 4;
     a_created_at := "2024-01-02T03:00:02Z";
     a_updated_at := "2024-01-02T03:00:03Z" |}.

(** [release] with the assets [assets]. *)
Definition with_assets (release : Release) (assets : list Asset) : Release :=
  {| r_tag_name := r_tag_name release;
     r_draft := r_draft release;
     r_prerelease := r_prerelease release;
     r_published_at := r_published_at release;
     r_body := r_body release;
     r_assets := assets |}.

(** No line of [s] ends in white space. *)
Definition lines_trimmed (s : string) : Prop :=
  Forall (λ l, Str.rstrip l = l) (Str.split_on Str.LF s).

(** A character that is no line boundary. *)
Definition inline (c : ascii) : bool := negb (Str.is_linebreak c).

(** A character that is a line feed or no line boundary at all. *)
Definition lf_or_inline (c : ascii) : bool :=
  Ascii.eqb c Str.LF || inline c.

(** A world whose versions file holds the text [text]. *)
Definition world_with_text (text : string) : World :=
  {| fs := {[ target := text ]}; requested := [] |}.

(** [w] without its versions file. *)
Definition without_target (w : World) : World :=
  {| fs := delete target (fs w); requested := requested w |}.

(** A printable ASCII character or a line feed. *)
Definition plain (c : ascii) : bool :=
  Ascii.eqb c Str.LF || Str.between 32 126 c.

(** [text] with a carriage return put before every line feed. *)
Fixpoint crlf (text : string) : string :=
  match text with
  | "" => ""
  | String c s =>
      if Ascii.eqb c Str.LF then String Str.CR (String Str.LF (crlf s))
      else String c (crlf s)
  end.

(** * Properties *)

(** ** Strings *)

Lemma append_cons c a b : String c a +:+ b = String c (a +:+ b).
Proof. reflexivity. Qed.

Lemma append_nil_l a : "" +:+ a = a.
Proof. reflexivity. Qed.

Lemma length_append a b :
  String.length (a +:+ b) = (String.length a + String.length b)%nat.
Proof.
  induction a as [|c a IH]; [done|].
  rewrite append_cons. simpl. by rewrite IH.
Qed.

(** ** The version key *)

Lemma lstrip_char_replicate x n rest :
  Str.lstrip_char x (Str.replicate n x +:+ rest) = Str.lstrip_char x rest.
Proof.
  induction n as [|n IH]; simpl; [done|].
  by rewrite Ascii.eqb_refl.
Qed.

Lemma lstrip_char_no_prefix x s :
  String.prefix (String x "") (Str.lstrip_char x s) = false.
Proof.
  induction s as [|c s IH]; simpl; [done|].
  destruct (Ascii.eqb c x) eqn:E; [done|].
  simpl. destruct (ascii_dec x c) as [->|Hne].
  - by rewrite Ascii.eqb_refl in E.
  - done.
Qed.

Lemma lstrip_char_decompose x s :
  ∃ n, s = Str.replicate n x +:+ Str.lstrip_char x s.
Proof.
  induction s as [|c s [n IH]]; simpl.
  - by exists O.
  - destruct (Ascii.eqb c x) eqn:E.
    + apply Ascii.eqb_eq in E as ->. exists (S n). simpl. rewrite append_cons. by f_equal.
    + by exists O.
Qed.

(** C10: the version key is the tag without its whole run of leading [v]
    characters: any number of leading [v]s is stripped, the key never starts
    with [v], the tag is the key behind some number of [v]s, and the tags
    [v1.2.3] and [vv1.2.3] both give the key [1.2.3]. *)
Theorem version_key_strips_every_leading_v :
  (∀ n rest, version_key (Str.replicate n "v"%char +:+ rest) = version_key rest)
  ∧ (∀ tag, String.prefix "v" (version_key tag) = false)
  ∧ (∀ tag, ∃ n, tag = Str.replicate n "v"%char +:+ version_key tag)
  ∧ version_key "v1.2.3" = "1.2.3"
  ∧ version_key "vv1.2.3" = "1.2.3".
Proof.
  unfold version_key. split_and!.
  - intros. apply lstrip_char_replicate.
  - intros. apply lstrip_char_no_prefix.
  - intros. apply lstrip_char_decompose.
  - reflexivity.
  - reflexivity.
Qed.

(** ** Changelog cleanup *)

(** C3, as amended: cleaning the example body gives [before], an empty
    line, [after]: the line that held the comment stays, emptied. *)
Theorem changelog_example_keeps_emptied_line :
  process_changelog (Some changelog_example)
  = Some ("before" +:+ Str.nl +:+ Str.nl +:+ "after").
Proof. reflexivity. Qed.

Lemma changelog_example_is_not_two_lines :
  process_changelog (Some changelog_example)
  ≠ Some ("before" +:+ Str.nl +:+ "after").
Proof. vm_compute. discriminate. Qed.

(** ** Checksum parsing *)

Lemma parse_lines_app acc l1 l2 :
  parse_lines acc (l1 ++ l2)
  = match parse_lines acc l1 with
    | Ok acc' => parse_lines acc' l2
    | Raise e => Raise e
    end.
Proof.
  revert acc. induction l1 as [|l l1 IH]; intros acc; simpl; [done|].
  destruct (parse_line acc l); [apply IH | done].
Qed.

Lemma parse_lines_ignored acc pre line post :
  (∀ acc', parse_line acc' line = Ok acc') →
  parse_lines acc (pre ++ line :: post) = parse_lines acc (pre ++ post).
Proof.
  intros Hskip. rewrite !parse_lines_app.
  destruct (parse_lines acc pre); [|done].
  simpl. by rewrite Hskip.
Qed.

Lemma split_blank s : Str.is_empty (Str.strip s) = true → Str.split s = [].
Proof.
  unfold Str.strip. induction s as [|c s IH]; simpl; [done|].
  destruct (Str.is_space c) eqn:Hc; [done|].
  simpl. destruct (Str.rstrip s); by rewrite ?Hc.
Qed.

Lemma parse_line_one_token acc line :
  length (Str.split line) = 1%nat → parse_line acc line = Ok acc.
Proof.
  intros Hlen. unfold parse_line.
  destruct (Str.is_empty (Str.strip line)); [done|].
  by rewrite Hlen.
Qed.

Lemma parse_line_unmatched acc line checksum filename :
  Str.split line = [checksum; filename] →
  Re.search_asset_name filename = None →
  parse_line acc line = Ok acc.
Proof.
  intros Hparts Hno. unfold parse_line.
  destruct (Str.is_empty (Str.strip line)); [done|].
  by rewrite Hparts; simpl; rewrite Hno.
Qed.

Lemma parse_line_many_tokens acc line :
  (3 ≤ length (Str.split line))%nat → parse_line acc line = Raise ValueError.
Proof.
  intros Hlen. unfold parse_line.
  destruct (Str.is_empty (Str.strip line)) eqn:Hblank.
  { apply split_blank in Hblank. rewrite Hblank in Hlen. simpl in Hlen. lia. }
  destruct (Str.split line) as [|a [|b [|c rest]]]; simpl in *; try lia; done.
Qed.

Lemma split_on_nonempty sep s : ∃ l ls, Str.split_on sep s = l :: ls.
Proof.
  destruct s as [|c s]; simpl; [eauto|].
  destruct (Ascii.eqb c sep); [eauto|].
  destruct (Str.split_on sep s); eauto.
Qed.

(** [text.split('\n')] of two texts joined by a line feed. *)
Lemma split_on_lines a b :
  Str.split_on Str.LF (a +:+ Str.nl +:+ b)
  = Str.split_on Str.LF a ++ Str.split_on Str.LF b.
Proof.
  induction a as [|c a IH]; [done|].
  rewrite append_cons. simpl. rewrite IH.
  destruct (Ascii.eqb c Str.LF); [done|].
  by destruct (split_on_nonempty Str.LF a) as (l & ls & ->).
Qed.

(** A line the parser passes over can be cut out of the manifest text. *)
Lemma parse_checksums_drop_line before line after tag :
  Str.split_on Str.LF line = [line] →
  (∀ acc, parse_line acc line = Ok acc) →
  parse_checksums (before +:+ Str.nl +:+ line +:+ Str.nl +:+ after) tag
  = parse_checksums (before +:+ Str.nl +:+ after) tag.
Proof.
  intros Hline Hskip. unfold parse_checksums.
  rewrite !split_on_lines, Hline.
  by apply (parse_lines_ignored ∅ (Str.split_on Str.LF before) line).
Qed.

(** C8: the manifest line [abcd1234 scarb-v1.2.3-x86_64-linux.tar.gz] parses
    to the one-entry mapping from [x86_64-linux] to [abcd1234]; a line of one
    token, and a line of two tokens whose file name the pattern does not
    match, can be dropped from the manifest without changing what the parser
    returns. *)
Theorem parse_checksums_example_and_ignored_lines :
  (∀ tag, parse_checksums manifest_example tag
          = Ok {[ "x86_64-linux" := "abcd1234" ]})
  ∧ (∀ acc pre line post,
       length (Str.split line) = 1%nat →
       parse_lines acc (pre ++ line :: post) = parse_lines acc (pre ++ post))
  ∧ (∀ acc pre line post checksum filename,
       Str.split line = [checksum; filename] →
       Re.search_asset_name filename = None →
       parse_lines acc (pre ++ line :: post) = parse_lines acc (pre ++ post)).
Proof.
  split_and!.
  - intros tag. vm_compute. reflexivity.
  - intros acc pre line post Hone. apply parse_lines_ignored.
    intros acc'. by apply parse_line_one_token.
  - intros acc pre line post checksum filename Htwo Hno.
    apply parse_lines_ignored. intros acc'.
    by eapply parse_line_unmatched.
Qed.

Lemma parse_checksums_ignored_lines_witness :
  parse_lines ∅ ([manifest_example] ++ "abcd1234" :: [])
  = parse_lines ∅ ([manifest_example] ++ [])
  ∧ parse_lines ∅ ([] ++ "abcd1234 README.md" :: [manifest_example])
    = parse_lines ∅ ([] ++ [manifest_example]).
Proof.
  split.
  - apply (proj1 (proj2 parse_checksums_example_and_ignored_lines)).
    reflexivity.
  - apply (proj2 (proj2 parse_checksums_example_and_ignored_lines)
             ∅ [] "abcd1234 README.md" [manifest_example] "abcd1234" "README.md").
    + reflexivity.
    + reflexivity.
Defined.

(** C2: on a manifest line of more than two tokens the parser does not skip
    the line: it raises [ValueError], also when well-formed lines precede
    it; the resolver lets the exception through, and the run ends with exit
    status 1 and the files as they were. *)
Theorem parse_checksums_raises_on_extra_tokens :
  parse_checksums tagged_manifest "v1.2.3" = Raise ValueError
  ∧ parse_checksums (manifest_example +:+ Str.nl +:+ "abcd1234 scarb notes.txt")
      "v1.2.3" = Raise ValueError
  ∧ (get_version_checksums (upstream [release_123] (Some tagged_manifest))
       "v1.2.3" empty_world).1 = Raise ValueError
  ∧ (main no_json (upstream [release_123] (Some tagged_manifest))
       world_with_file).1 = 1
  ∧ fs (main no_json (upstream [release_123] (Some tagged_manifest))
          world_with_file).2 = fs world_with_file.
Proof. split_and!; reflexivity. Qed.

(** ** One release at a time *)

Lemma get_version_checksums_eq env tag w :
  get_version_checksums env tag w
  = (match text_reply env (checksums_url tag) with
     | Some text => match parse_checksums text tag with
                    | Ok c => Ok (Some c)
                    | Raise e => Raise e
                    end
     | None => Ok None
     end, logged (checksums_url tag) w).
Proof.
  unfold get_version_checksums, mbind, M_bind, requests_get, logged. simpl.
  destruct (text_reply env (checksums_url tag)) as [text|]; [|done].
  unfold lift, mret, M_ret. by destruct (parse_checksums text tag).
Qed.

(** Every call of the resolver leaves its URL in the request log. *)
Lemma get_version_checksums_requested env tag w :
  requested (get_version_checksums env tag w).2
  = requested w ++ [checksums_url tag].
Proof. by rewrite get_version_checksums_eq. Qed.

Lemma process_release_draft env cur st r w :
  r_draft r = true →
  process_release env cur st r w = (Ok (count_skipped st), w).
Proof. intros Hd. unfold process_release. by rewrite Hd. Qed.

Lemma process_release_reuse env cur st r w stored :
  r_draft r = false →
  up_to_date cur (version_of r) (r_published_at r) = Ok (Some stored) →
  process_release env cur st r w = (Ok (store st (version_of r) stored), w).
Proof.
  intros Hd Hup. unfold process_release. rewrite Hd.
  unfold mbind, M_bind, lift. by rewrite Hup.
Qed.

Lemma process_release_raise env cur st r w e :
  r_draft r = false →
  up_to_date cur (version_of r) (r_published_at r) = Raise e →
  process_release env cur st r w = (Raise e, w).
Proof.
  intros Hd Hup. unfold process_release. rewrite Hd.
  unfold mbind, M_bind, lift. by rewrite Hup.
Qed.

Lemma process_release_resolve env cur st r w :
  r_draft r = false →
  up_to_date cur (version_of r) (r_published_at r) = Ok None →
  process_release env cur st r w
  = (match text_reply env (checksums_url (r_tag_name r)) with
     | Some text =>
         match parse_checksums text (r_tag_name r) with
         | Ok c => if bool_decide (c = ∅) then Ok (count_skipped st)
                   else Ok (store st (version_of r) (fresh_record r c))
         | Raise e => Raise e
         end
     | None => Ok (count_skipped st)
     end, logged (checksums_url (r_tag_name r)) w).
Proof.
  intros Hd Hup. unfold process_release. rewrite Hd.
  unfold mbind at 1. unfold M_bind, lift. rewrite Hup.
  unfold mbind, M_bind. rewrite get_version_checksums_eq.
  destruct (text_reply env (checksums_url (r_tag_name r))) as [text|]; [|done].
  destruct (parse_checksums text (r_tag_name r)) as [c|e]; [|done].
  by destruct (bool_decide (c = ∅)).
Qed.

Lemma up_to_date_obj m version date :
  up_to_date (JObj m) version date
  = match m !! version with
    | None => Ok None
    | Some stored =>
        metadata ← Py.getitem stored "metadata";
        existing_date ← Py.getitem metadata "releaseDate";
        if Py.eq_str existing_date date then Ok (Some stored) else Ok None
    end.
Proof.
  unfold up_to_date. simpl.
  destruct (m !! version) as [stored|] eqn:Hm.
  - rewrite bool_decide_eq_true_2 by eauto. simpl. done.
  - rewrite bool_decide_eq_false_2 by (intros [? ?]; done). done.
Qed.



Lemma process_release_outcome env cur st r w :
  (process_release env cur st r w).1
  = match outcome env cur r with
    | Ok o => Ok (apply_outcome st r o)
    | Raise e => Raise e
    end
  ∧ fs (process_release env cur st r w).2 = fs w.
Proof.
  unfold outcome. destruct (r_draft r) eqn:Hd.
  { by rewrite process_release_draft. }
  destruct (up_to_date cur (version_of r) (r_published_at r))
    as [[stored|]|e] eqn:Hup.
  - by rewrite (process_release_reuse _ _ _ _ _ stored).
  - rewrite process_release_resolve by done. simpl. split; [|done].
    unfold resolve.
    destruct (text_reply env (checksums_url (r_tag_name r))) as [text|]; [|done].
    destruct (parse_checksums text (r_tag_name r)) as [c|]; [|done].
    by destruct (bool_decide (c = ∅)).
  - by rewrite (process_release_raise _ _ _ _ _ e).
Qed.

Lemma process_releases_nil env cur st w :
  process_releases env cur st [] w = (Ok st, w).
Proof. reflexivity. Qed.

Lemma process_releases_cons env cur st r rest w :
  process_releases env cur st (r :: rest) w
  = match process_release env cur st r w with
    | (Ok st1, w1) => process_releases env cur st1 rest w1
    | (Raise e, w1) => (Raise e, w1)
    end.
Proof. reflexivity. Qed.

(** The loop never touches the files. *)
Lemma process_releases_fs env cur rs st w :
  fs (process_releases env cur st rs w).2 = fs w.
Proof.
  revert st w. induction rs as [|r rs IH]; intros st w; [done|].
  rewrite process_releases_cons.
  destruct (process_release_outcome env cur st r w) as [_ Hfs].
  destruct (process_release env cur st r w) as [[st1|e] w1]; simpl in *.
  - by rewrite IH.
  - done.
Qed.

(** A successful loop, release by release. *)
Lemma process_releases_ok_cons env cur st r rest w st' w' :
  process_releases env cur st (r :: rest) w = (Ok st', w') →
  ∃ o w1, outcome env cur r = Ok o
          ∧ process_releases env cur (apply_outcome st r o) rest w1 = (Ok st', w').
Proof.
  rewrite process_releases_cons. intros Hrun.
  destruct (process_release_outcome env cur st r w) as [Hout _].
  destruct (process_release env cur st r w) as [[st1|e] w1]; simpl in *; [|done].
  destruct (outcome env cur r) as [o|]; [|done].
  exists o, w1. by simplify_eq.
Qed.

Lemma outcome_draft env cur r : r_draft r = true → outcome env cur r = Ok None.
Proof. intros Hd. unfold outcome. by rewrite Hd. Qed.

(** Only releases that are not drafts put anything under a key. *)
Lemma process_releases_untouched_key env cur rs st w st' w' k :
  process_releases env cur st rs w = (Ok st', w') →
  (∀ r, r ∈ rs → r_draft r = false → version_of r ≠ k) →
  versions st' !! k = versions st !! k.
Proof.
  revert st w. induction rs as [|r rs IH]; intros st w Hrun Hkeys.
  { rewrite process_releases_nil in Hrun. by simplify_eq. }
  apply process_releases_ok_cons in Hrun as (o & w1 & Ho & Hrun).
  rewrite (IH _ _ Hrun) by (intros; apply Hkeys; [by right|done]).
  destruct o as [v|]; [|done].
  simpl. apply lookup_insert_ne.
  apply Hkeys; [by left|].
  destruct (r_draft r) eqn:Hd; [|done].
  by rewrite outcome_draft in Ho.
Qed.

Lemma process_releases_skipped_drafts env cur rs st w st' w' :
  process_releases env cur st rs w = (Ok st', w') →
  skipped_count st + count_drafts rs ≤ skipped_count st'.
Proof.
  unfold count_drafts.
  revert st w. induction rs as [|r rs IH]; intros st w Hrun.
  { rewrite process_releases_nil in Hrun. simplify_eq/=. lia. }
  apply process_releases_ok_cons in Hrun as (o & w1 & Ho & Hrun).
  apply IH in Hrun. rewrite filter_cons.
  destruct (decide (r_draft r = true)) as [Hd|Hd].
  - rewrite outcome_draft in Ho by done. simplify_eq/=. lia.
  - destruct o; simpl in *; lia.
Qed.

(** The request log of a loop that completes: one manifest request for each
    release that is neither a draft nor up to date, in order. *)
Lemma process_releases_requested env cur rs st w st' w' :
  process_releases env cur st rs w = (Ok st', w') →
  requested w'
  = requested w
    ++ map (λ r, checksums_url (r_tag_name r)) (filter (λ r, resolved cur r) rs).
Proof.
  revert st w. induction rs as [|r rs IH]; intros st w Hrun.
  { rewrite process_releases_nil in Hrun. simplify_eq. by rewrite app_nil_r. }
  rewrite process_releases_cons in Hrun.
  destruct (r_draft r) eqn:Hd.
  { rewrite filter_cons_False by (unfold resolved; rewrite Hd; simpl; tauto).
    rewrite process_release_draft in Hrun by done. by apply IH in Hrun. }
  destruct (up_to_date cur (version_of r) (r_published_at r))
    as [[stored|]|e] eqn:Hup.
  - rewrite filter_cons_False by (unfold resolved; rewrite Hd, Hup; simpl; tauto).
    rewrite (process_release_reuse _ _ _ _ _ stored) in Hrun by done.
    by apply IH in Hrun.
  - rewrite filter_cons_True by (unfold resolved; rewrite Hd, Hup; simpl; tauto).
    rewrite process_release_resolve in Hrun by done.
    destruct (text_reply env (checksums_url (r_tag_name r))) as [text|];
      [destruct (parse_checksums text (r_tag_name r)) as [c|];
         [destruct (bool_decide (c = ∅))|done]|];
      apply IH in Hrun; rewrite Hrun; simpl; by rewrite <- app_assoc.
  - by rewrite (process_release_raise _ _ _ _ _ e) in Hrun.
Qed.

(** A reused record is the output's entry for its key unless a later release
    of the list with the same key replaces it. *)
Lemma reused_record_in_output env cur pre r post st w st' w' stored :
  process_releases env cur st (pre ++ r :: post) w = (Ok st', w') →
  r_draft r = false →
  up_to_date cur (version_of r) (r_published_at r) = Ok (Some stored) →
  (∀ r', r' ∈ post → r_draft r' = false → version_of r' ≠ version_of r) →
  versions st' !! version_of r = Some stored.
Proof.
  revert st w. induction pre as [|p pre IH]; intros st w Hrun Hd Hup Hpost.
  - change ([] ++ r :: post) with (r :: post) in Hrun.
    rewrite process_releases_cons in Hrun.
    rewrite (process_release_reuse _ _ _ _ _ stored) in Hrun by done.
    rewrite (process_releases_untouched_key _ _ _ _ _ _ _ _ Hrun Hpost).
    apply lookup_insert_eq.
  - change ((p :: pre) ++ r :: post) with (p :: (pre ++ r :: post)) in Hrun.
    apply process_releases_ok_cons in Hrun as (o & w1 & _ & Hrun).
    by eapply IH.
Qed.

(** C1, as amended: for a release that is not a draft and is not served from
    the stored document, the merger puts a fresh record under the version
    key when the manifest request succeeds and the parsed mapping is not
    empty; it skips the release, counting it, when the parsed mapping is
    empty and when the request fails. Each case leaves the manifest URL in
    the request log. *)
Theorem resolved_release_needs_nonempty_checksums env cur st r w :
  r_draft r = false →
  up_to_date cur (version_of r) (r_published_at r) = Ok None →
  (∀ text c,
     text_reply env (checksums_url (r_tag_name r)) = Some text →
     parse_checksums text (r_tag_name r) = Ok c →
     c ≠ ∅ →
     process_release env cur st r w
     = (Ok (store st (version_of r) (fresh_record r c)),
        logged (checksums_url (r_tag_name r)) w))
  ∧ (∀ text,
       text_reply env (checksums_url (r_tag_name r)) = Some text →
       parse_checksums text (r_tag_name r) = Ok ∅ →
       process_release env cur st r w
       = (Ok (count_skipped st), logged (checksums_url (r_tag_name r)) w))
  ∧ (text_reply env (checksums_url (r_tag_name r)) = None →
     process_release env cur st r w
     = (Ok (count_skipped st), logged (checksums_url (r_tag_name r)) w)).
Proof.
  intros Hd Hup. rewrite process_release_resolve by done. split_and!.
  - intros text c -> -> Hne. by rewrite bool_decide_eq_false_2.
  - by intros text -> ->.
  - by intros ->.
Qed.

Lemma resolved_release_needs_nonempty_checksums_witness :
  process_release (upstream [release_123] (Some manifest_example)) (JObj ∅)
    start release_123 empty_world
  = (Ok (store start "1.2.3" stored_123),
     logged (checksums_url "v1.2.3") empty_world).
Proof.
  assert (r_draft release_123 = false) as Hd by reflexivity.
  assert (up_to_date (JObj ∅) (version_of release_123)
            (r_published_at release_123) = Ok None) as Hup by reflexivity.
  apply (proj1 (resolved_release_needs_nonempty_checksums
                  (upstream [release_123] (Some manifest_example)) (JObj ∅)
                  start release_123 empty_world Hd Hup)
           manifest_example {[ "x86_64-linux" := "abcd1234" ]}).
  - reflexivity.
  - reflexivity.
  - apply map_non_empty_singleton.
Defined.

(** An empty manifest is fetched successfully, and the release is skipped
    all the same. *)
Lemma empty_manifest_release_is_skipped :
  (get_version_checksums (upstream [release_123] (Some "")) "v1.2.3"
     empty_world).1 = Ok (Some ∅)
  ∧ (process_releases (upstream [release_123] (Some "")) (JObj ∅) start
       [release_123] empty_world).1
    = Ok {| versions := ∅; processed_count := 0; skipped_count := 1 |}.
Proof. split; reflexivity. Qed.

(** C5, as amended: a draft is counted as skipped and puts nothing in the
    output, whatever the stored document holds; after a run that completes,
    its version key is in the output only if a release of the same list that
    is not a draft has the same key; and the skipped count is at least the
    number of drafts. *)
Theorem draft_release_adds_no_entry env cur rs r st' w w' :
  process_releases env cur start rs w = (Ok st', w') →
  r ∈ rs →
  r_draft r = true →
  (∀ st0 w0, process_release env cur st0 r w0 = (Ok (count_skipped st0), w0))
  ∧ ((∀ r', r' ∈ rs → r_draft r' = false → version_of r' ≠ version_of r) →
     versions st' !! version_of r = None)
  ∧ count_drafts rs ≤ skipped_count st'.
Proof.
  intros Hrun Hin Hd. split_and!.
  - intros st0 w0. by apply process_release_draft.
  - intros Hkeys.
    by rewrite (process_releases_untouched_key _ _ _ _ _ _ _ _ Hrun Hkeys).
  - apply process_releases_skipped_drafts in Hrun. simpl in Hrun. lia.
Qed.

Lemma draft_release_adds_no_entry_witness :
  versions (store (count_skipped start) "0.9.0" stored_090)
    !! version_of draft_123 = None.
Proof.
  assert (process_releases (upstream [draft_123; release_090] None)
            (JObj {[ "0.9.0" := stored_090; "1.2.3" := stored_123 ]}) start
            [draft_123; release_090] empty_world
          = (Ok (store (count_skipped start) "0.9.0" stored_090), empty_world))
    as Hrun by reflexivity.
  assert (draft_123 ∈ [draft_123; release_090]) as Hin by (by left).
  assert (r_draft draft_123 = true) as Hd by reflexivity.
  apply (proj1 (proj2 (draft_release_adds_no_entry _ _ _ _ _ _ _ Hrun Hin Hd))).
  intros r' Hr' Hnd. apply list_elem_of_In in Hr'.
  destruct Hr' as [<-|[<-|[]]]; [discriminate Hnd | discriminate].
Defined.

(** A draft tagged [1.2.3] next to the published [v1.2.3]: the draft's key
    is in the output. *)
Lemma draft_key_taken_by_published_release :
  r_draft draft_123 = true
  ∧ ∃ st' w',
      process_releases (upstream [draft_123; release_123] (Some manifest_example))
        (JObj ∅) start [draft_123; release_123] empty_world = (Ok st', w')
      ∧ versions st' !! version_of draft_123 = Some stored_123.
Proof. split; [reflexivity|]. eexists _, _. split; reflexivity. Qed.

(** ** The whole run *)

Lemma contains_char_cons c a s :
  Str.contains (String c "") (String a s)
  = bool_decide (c = a) || Str.contains (String c "") s.
Proof.
  simpl. destruct (ascii_dec c a) as [->|Hne].
  - rewrite bool_decide_eq_true_2 by done. by destruct s.
  - by rewrite bool_decide_eq_false_2.
Qed.

Lemma contains_char_app c s t :
  Str.contains (String c "") (s +:+ t)
  = Str.contains (String c "") s || Str.contains (String c "") t.
Proof.
  induction s as [|a s IH].
  - by destruct t.
  - rewrite append_cons, !contains_char_cons, IH. by rewrite orb_assoc.
Qed.

Lemma digit_not_slash n : bool_decide ("/"%char = Datetime.digit n) = false.
Proof.
  unfold Datetime.digit.
  pose proof (Nat.mod_upper_bound n 10 ltac:(done)) as Hlt.
  destruct (n mod 10)%nat as [|[|[|[|[|[|[|[|[|[|k]]]]]]]]]]; try done; lia.
Qed.

Lemma pad2_no_slash n : Str.contains "/" (Datetime.pad2 n) = false.
Proof.
  unfold Datetime.pad2. by rewrite !contains_char_cons, !digit_not_slash.
Qed.

Lemma strftime_no_slash t : Str.contains "/" (Datetime.strftime t) = false.
Proof.
  unfold Datetime.strftime, Datetime.pad4.
  by rewrite !contains_char_app, !pad2_no_slash.
Qed.

Lemma strftime_length t : String.length (Datetime.strftime t) = 15%nat.
Proof. reflexivity. Qed.

Lemma backup_path_eq env :
  Pathlib.with_suffix versions_path (backup_suffix env)
  = Ok (Pathlib.Path "versions"
          ("versions.json.bak-" +:+ Datetime.strftime (now env))).
Proof.
  unfold Pathlib.with_suffix, backup_suffix.
  rewrite contains_char_app, strftime_no_slash.
  generalize (Datetime.strftime (now env)). intros stamp.
  reflexivity.
Qed.

Lemma backup_name_eq env :
  Pathlib.str (Pathlib.Path "versions"
                 ("versions.json.bak-" +:+ Datetime.strftime (now env)))
  = backup_name env.
Proof. reflexivity. Qed.


Lemma main_eq json_load env w :
  main json_load env w
  = match Py.len (current json_load (fs w)) with
    | Raise _ => (1, w)
    | Ok _ =>
        match releases_reply env with
        | None => (1, logged api_url w)
        | Some rs =>
            match process_releases env (current json_load (fs w)) start rs
                    (logged api_url w) with
            | (Raise _, w1) => (1, w1)
            | (Ok st, w1) =>
                match fs w !! "versions" with
                | Some _ => (1, w1)
                | None =>
                    (0, {| fs := persist (fs w) (backup_name env)
                                   (Json.dumps (JObj (versions st)));
                           requested := requested w1 |})
                end
            end
        end
    end.
Proof.
  unfold main, update_versions_file.
  unfold mbind at 1. unfold M_bind.
  assert (load_current_versions json_load versions_path w
          = (Ok (current json_load (fs w)), w)) as ->.
  { unfold load_current_versions, current.
    change (Pathlib.str versions_path) with target.
    destruct (fs w !! target) as [text|]; [|done].
    by destruct (json_load text). }
  unfold mbind at 1. unfold M_bind, lift.
  destruct (Py.len (current json_load (fs w))) as [n|e]; [|done].
  unfold mbind at 1. unfold M_bind.
  unfold fetch_releases, mbind at 1. unfold M_bind, requests_get.
  fold (logged api_url w).
  destruct (releases_reply env) as [rs|]; [|done].
  unfold mret at 1. unfold M_ret.
  unfold mbind at 1. unfold M_bind.
  pose proof (process_releases_fs env (current json_load (fs w)) rs start
                (logged api_url w)) as Hfs.
  destruct (process_releases env (current json_load (fs w)) start rs
              (logged api_url w)) as [[st|e] w1]; [|done].
  simpl in Hfs.
  unfold mbind at 1. unfold M_bind, mkdir_exist_ok.
  change (Pathlib.str (Pathlib.Path "" "versions")) with "versions".
  rewrite Hfs.
  destruct (fs w !! "versions"); [done|].
  unfold mbind at 1. unfold M_bind, path_exists.
  change (Pathlib.str versions_path) with target. rewrite Hfs.
  unfold persist.
  destruct (fs w !! target) as [old|] eqn:Hold.
  - rewrite bool_decide_eq_true_2 by eauto.
    unfold mbind at 1. unfold M_bind.
    unfold mbind at 1. unfold M_bind, lift.
    rewrite backup_path_eq.
    unfold path_rename. rewrite backup_name_eq.
    change (Pathlib.str versions_path) with target. rewrite Hfs, Hold.
    unfold write_text. simpl.
    by change (Pathlib.str versions_path) with target.
  - rewrite bool_decide_eq_false_2 by (intros [? ?]; done).
    unfold mbind at 1. unfold M_bind, mret, M_ret.
    unfold write_text. simpl.
    change (Pathlib.str versions_path) with target. by rewrite Hfs.
Qed.

(** C6: when the release list cannot be fetched, the run ends with exit
    status 1 and every file, the versions file with it, is as it was: nothing
    is renamed and nothing is written. *)
Theorem release_list_failure_aborts json_load env w :
  releases_reply env = None →
  (main json_load env w).1 = 1
  ∧ fs (main json_load env w).2 = fs w
  ∧ fs (main json_load env w).2 !! target = fs w !! target.
Proof.
  intros Hfail. rewrite main_eq, Hfail.
  by destruct (Py.len (current json_load (fs w))).
Qed.

Lemma release_list_failure_aborts_witness :
  (main no_json unreachable world_with_file).1 = 1
  ∧ fs (main no_json unreachable world_with_file).2 = fs world_with_file
  ∧ fs (main no_json unreachable world_with_file).2 !! target = Some "old".
Proof.
  apply (release_list_failure_aborts no_json unreachable world_with_file).
  reflexivity.
Defined.

#[global] Instance key_le_total : Total Json.key_le.
Proof. intros a b. apply String.leb_total. Qed.


Lemma sorted_items_permutation m : Json.sorted_items m ≡ₚ map_to_list m.
Proof. apply merge_sort_Permutation. Qed.



(** ** Running twice *)

Lemma process_releases_merge env cur rs st w :
  match (process_releases env cur st rs w).1 with
  | Ok st' => merge env cur (versions st) rs = Ok (versions st')
  | Raise e => merge env cur (versions st) rs = Raise e
  end.
Proof.
  revert st w. induction rs as [|r rs IH]; intros st w; [done|].
  rewrite process_releases_cons. simpl.
  destruct (process_release_outcome env cur st r w) as [Hout _].
  destruct (process_release env cur st r w) as [[st1|e] w1]; simpl in *.
  - destruct (outcome env cur r) as [[v|]|]; simplify_eq.
    + apply (IH (store st (version_of r) v)).
    + apply (IH (count_skipped st)).
  - by destruct (outcome env cur r) as [[v|]|]; simplify_eq.
Qed.

Lemma merge_lookup env cur rs vs vs' k :
  merge env cur vs rs = Ok vs' →
  vs' !! k = match last_write env cur k rs with
             | Some v => Some v
             | None => vs !! k
             end.
Proof.
  revert vs. induction rs as [|r rs IH]; intros vs Hrun; simpl in *.
  { by simplify_eq. }
  destruct (outcome env cur r) as [[v|]|] eqn:Ho; [| |done].
  - rewrite (IH _ Hrun). destruct (last_write env cur k rs); [done|].
    destruct (decide (version_of r = k)) as [<-|Hne].
    + apply lookup_insert_eq.
    + by apply lookup_insert_ne.
  - rewrite (IH _ Hrun). destruct (last_write env cur k rs); [done|].
    by destruct (decide (version_of r = k)).
Qed.

Lemma merge_ok_all env cur rs vs vs' :
  merge env cur vs rs = Ok vs' →
  ∀ r, r ∈ rs → ∃ o, outcome env cur r = Ok o.
Proof.
  revert vs. induction rs as [|r rs IH]; intros vs Hrun x Hx.
  { by apply elem_of_nil in Hx. }
  simpl in Hrun. apply elem_of_cons in Hx as [->|Hx].
  - destruct (outcome env cur r); [eauto|done].
  - destruct (outcome env cur r) as [[v|]|]; [| |done]; by eapply IH.
Qed.

Lemma release_date_fresh r c :
  release_date (fresh_record r c) = Ok (JStr (r_published_at r)).
Proof. reflexivity. Qed.

Lemma up_to_date_Some cur version date stored :
  up_to_date cur version date = Ok (Some stored) →
  ∃ d, release_date stored = Ok d ∧ Py.eq_str d date = true.
Proof.
  unfold up_to_date, release_date.
  destruct (Py.contains version cur) as [[]|]; simpl; [|done..].
  destruct (Py.getitem cur version) as [x|]; simpl; [|done].
  destruct (Py.getitem x "metadata") as [md|] eqn:Hmd; simpl; [|done].
  destruct (Py.getitem md "releaseDate") as [d|] eqn:Hd; simpl; [|done].
  destruct (Py.eq_str d date) eqn:Heq; [|done].
  intros [= <-]. exists d. by rewrite Hmd.
Qed.

Lemma up_to_date_obj_dated m version date stored d :
  m !! version = Some stored →
  release_date stored = Ok d →
  up_to_date (JObj m) version date
  = if Py.eq_str d date then Ok (Some stored) else Ok None.
Proof.
  intros Hm Hd. rewrite up_to_date_obj, Hm. unfold release_date in Hd.
  destruct (Py.getitem stored "metadata") as [md|]; simpl in *; [|done].
  by rewrite Hd.
Qed.

(** Whatever a release stores carries the release's own date. *)
Lemma outcome_Some_dated env cur r v :
  outcome env cur r = Ok (Some v) →
  r_draft r = false
  ∧ ∃ d, release_date v = Ok d ∧ Py.eq_str d (r_published_at r) = true.
Proof.
  unfold outcome. destruct (r_draft r); [done|]. intros Ho. split; [done|].
  destruct (up_to_date cur (version_of r) (r_published_at r))
    as [[stored|]|] eqn:Hup; [| |done].
  - simplify_eq. by eapply up_to_date_Some.
  - unfold resolve in Ho.
    destruct (text_reply env (checksums_url (r_tag_name r))) as [text|]; [|done].
    destruct (parse_checksums text (r_tag_name r)) as [c|]; [|done].
    destruct (bool_decide (c = ∅)); [done|]. simplify_eq.
    exists (JStr (r_published_at r)). split; [apply release_date_fresh|].
    apply String.eqb_refl.
Qed.

(** A release that stores nothing in the first run stores, in a run over
    the first run's output [m], nothing or what [m] has under its key. *)
Lemma outcome_None_again env cur m r o :
  outcome env cur r = Ok None →
  outcome env (JObj m) r = Ok o →
  o = None ∨ o = m !! version_of r.
Proof.
  unfold outcome. destruct (r_draft r); [intros; simplify_eq; by left|].
  destruct (up_to_date cur (version_of r) (r_published_at r))
    as [[stored|]|]; [done| |done].
  intros Hres. rewrite up_to_date_obj.
  destruct (m !! version_of r) as [stored|] eqn:Hm.
  - destruct (Py.getitem stored "metadata") as [md|]; simpl; [|done].
    destruct (Py.getitem md "releaseDate") as [d|]; simpl; [|done].
    destruct (Py.eq_str d (r_published_at r)).
    + intros; simplify_eq. by right.
    + rewrite Hres. intros; simplify_eq. by left.
  - rewrite Hres. intros; simplify_eq. by left.
Qed.

Lemma last_write_None_again env cur m k rs :
  (∀ r, r ∈ rs → ∃ o, outcome env cur r = Ok o) →
  (∀ r, r ∈ rs → ∃ o, outcome env (JObj m) r = Ok o) →
  last_write env cur k rs = None →
  last_write env (JObj m) k rs = None ∨ last_write env (JObj m) k rs = m !! k.
Proof.
  induction rs as [|r rs IH]; intros Hok1 Hok2 Hlw; simpl in *; [by left|].
  destruct (last_write env cur k rs) eqn:Hrest; [done|].
  destruct (last_write env (JObj m) k rs) as [x|] eqn:Hrest2.
  - destruct IH as [IH|IH]; [set_solver..|done|done|by right].
  - destruct (decide (version_of r = k)) as [<-|]; [|by left].
    destruct (Hok1 r) as [o1 Ho1]; [by left|].
    destruct (Hok2 r) as [o2 Ho2]; [by left|].
    rewrite Ho1 in Hlw. rewrite Ho2.
    destruct o1; [done|].
    destruct (outcome_None_again _ _ _ _ _ Ho1 Ho2) as [->| ->]; [by left|].
    destruct (m !! version_of r); [by right|by left].
Qed.

Lemma last_write_Some_again env cur m k rs v :
  (∀ r, r ∈ rs → ∃ o, outcome env cur r = Ok o) →
  (∀ r, r ∈ rs → ∃ o, outcome env (JObj m) r = Ok o) →
  last_write env cur k rs = Some v →
  m !! k = Some v →
  last_write env (JObj m) k rs = Some v.
Proof.
  induction rs as [|r rs IH]; intros Hok1 Hok2 Hlw Hm; simpl in *; [done|].
  destruct (last_write env cur k rs) as [v'|] eqn:Hrest.
  { simplify_eq. rewrite IH; [done|set_solver..|done|done]. }
  destruct (decide (version_of r = k)) as [<-|]; [|done].
  destruct (outcome env cur r) as [[v'|]|] eqn:Ho1; [|done..]. simplify_eq.
  destruct (last_write_None_again env cur m (version_of r) rs)
    as [Hagain|Hagain]; [set_solver..|done| |].
  - rewrite Hagain.
    apply outcome_Some_dated in Ho1 as (Hd & d & Hdate & Heq).
    unfold outcome. rewrite Hd.
    by rewrite (up_to_date_obj_dated _ _ _ _ _ Hm Hdate), Heq.
  - by rewrite Hagain, Hm.
Qed.

(** The merge over its own output gives that output again. *)
Lemma merge_again env cur rs vs1 vs2 :
  merge env cur ∅ rs = Ok vs1 →
  merge env (JObj vs1) ∅ rs = Ok vs2 →
  vs2 = vs1.
Proof.
  intros Hrun1 Hrun2. apply map_eq. intros k.
  pose proof (merge_ok_all _ _ _ _ _ Hrun1) as Hok1.
  pose proof (merge_ok_all _ _ _ _ _ Hrun2) as Hok2.
  pose proof (merge_lookup _ _ _ _ _ k Hrun1) as H1.
  rewrite (merge_lookup _ _ _ _ _ k Hrun2), lookup_empty.
  rewrite lookup_empty in H1.
  destruct (last_write env cur k rs) as [v|] eqn:Hlw.
  - by rewrite (last_write_Some_again _ _ _ _ _ v Hok1 Hok2 Hlw H1).
  - destruct (last_write_None_again _ _ vs1 k _ Hok1 Hok2 Hlw) as [->| ->];
      [by rewrite H1|by destruct (vs1 !! k)].
Qed.

Lemma main_plan json_load env w :
  fs (main json_load env w).2
  = match plan json_load env (fs w) with
    | Some vs => persist (fs w) (backup_name env) (Json.dumps (JObj vs))
    | None => fs w
    end
  ∧ (main json_load env w).1
    = match plan json_load env (fs w) with Some _ => 0 | None => 1 end.
Proof.
  rewrite main_eq. unfold plan.
  destruct (Py.len (current json_load (fs w))); [|done].
  destruct (releases_reply env) as [rs|]; [|done].
  pose proof (process_releases_merge env (current json_load (fs w)) rs start
                (logged api_url w)) as Hm.
  pose proof (process_releases_fs env (current json_load (fs w)) rs start
                (logged api_url w)) as Hfs.
  destruct (process_releases env (current json_load (fs w)) start rs
              (logged api_url w)) as [[st|e] w1]; simpl in *; rewrite Hm.
  - by destruct (fs w !! "versions").
  - done.
Qed.

Lemma persist_target files backup text :
  persist files backup text !! target = Some text.
Proof.
  unfold persist. destruct (files !! target); apply lookup_insert_eq.
Qed.

Lemma merge_at_time env t cur vs rs :
  merge (at_time env t) cur vs rs = merge env cur vs rs.
Proof.
  revert vs. induction rs as [|r rs IH]; intros vs; simpl; [done|].
  change (outcome (at_time env t) cur r) with (outcome env cur r).
  destruct (outcome env cur r) as [[v|]|]; by rewrite ?IH.
Qed.

Lemma plan_at_time json_load env t files :
  plan json_load (at_time env t) files = plan json_load env files.
Proof.
  unfold plan. simpl.
  destruct (Py.len (current json_load files)); [|done].
  destruct (releases_reply env) as [rs|]; [|done].
  by rewrite merge_at_time.
Qed.

Lemma second_run_same_file json_load env later w :
  (∀ vs, plan json_load env (fs w) = Some vs →
         json_load (Json.dumps (JObj vs)) = Some (JObj vs)) →
  fs (main json_load (at_time env later) (main json_load env w).2).2 !! target
  = fs (main json_load env w).2 !! target.
Proof.
  intros Hback.
  destruct (main_plan json_load (at_time env later) (main json_load env w).2)
    as [-> _].
  destruct (main_plan json_load env w) as [-> _].
  rewrite plan_at_time.
  destruct (plan json_load env (fs w)) as [vs1|] eqn:Hplan1.
  - destruct (plan json_load env (persist _ _ _)) as [vs2|] eqn:Hplan2; [|done].
    rewrite !persist_target. do 3 f_equal.
    unfold plan in Hplan1, Hplan2.
    assert (current json_load
              (persist (fs w) (backup_name env) (Json.dumps (JObj vs1)))
            = JObj vs1) as Hcur.
    { unfold current. by rewrite persist_target, Hback. }
    rewrite Hcur in Hplan2.
    destruct (Py.len (current json_load (fs w))); [|done].
    destruct (releases_reply env) as [rs|]; [|done].
    destruct (merge env (current json_load (fs w)) ∅ rs) as [vs1'|] eqn:Hm1;
      [|done].
    destruct (fs w !! "versions"); [done|]. simplify_eq.
    simpl in Hplan2.
    destruct (merge env (JObj vs1) ∅ rs) as [vs2'|] eqn:Hm2; [|done].
    destruct (persist _ _ _ !! "versions"); [done|]. simplify_eq.
    by eapply merge_again.
  - by rewrite Hplan1.
Qed.

(** ** The reference decoder reads back what the encoder writes *)

Lemma append_assoc a b c : (a +:+ b) +:+ c = a +:+ (b +:+ c).
Proof.
  induction a as [|x a IH]; [done|].
  by rewrite !append_cons, IH.
Qed.

Lemma append_nil_r a : a +:+ "" = a.
Proof.
  induction a as [|x a IH]; [done|].
  by rewrite append_cons, IH.
Qed.

Lemma json_size_arr l v : v ∈ l → (json_size v < json_size (JArr l))%nat.
Proof.
  simpl. induction 1 as [|x y l' Hin IH]; simpl; lia.
Qed.

Lemma json_size_obj (m : gmap string json) k v :
  m !! k = Some v → (json_size v < json_size (JObj m))%nat.
Proof.
  intros Hk. simpl.
  rewrite <- (insert_delete_id m k v Hk).
  rewrite map_fold_insert_L.
  - lia.
  - intros; lia.
  - apply lookup_delete_eq.
Qed.

Lemma skip_ws_spaces n s :
  JsonLoad.skip_ws (Str.replicate n " "%char +:+ s) = JsonLoad.skip_ws s.
Proof. induction n as [|n IH]; [done|]. by rewrite <- IH. Qed.

Lemma skip_ws_newline_indent l s :
  JsonLoad.skip_ws (Json.newline_indent l +:+ s) = JsonLoad.skip_ws s.
Proof.
  unfold Json.newline_indent, Str.nl. rewrite append_assoc, append_cons.
  simpl. apply skip_ws_spaces.
Qed.

Lemma string_body_escape_char c x t r :
  JsonLoad.string_body x = Some (t, r) →
  JsonLoad.string_body (Json.escape_char c +:+ x) = Some (String c t, r).
Proof.
  intros Hx.
  destruct c as [[] [] [] [] [] [] [] []];
    vm_compute (Json.escape_char _);
    rewrite ?append_cons, append_nil_l; simpl; by rewrite Hx.
Qed.

Lemma string_body_escape t rest :
  JsonLoad.string_body (Json.escape t +:+ String Json.DQUOTE rest)
  = Some (t, rest).
Proof.
  induction t as [|c t IH]; [done|].
  simpl. rewrite append_assoc. by apply string_body_escape_char.
Qed.

Lemma ok_rest_span rest :
  ok_rest rest → JsonLoad.span JsonLoad.is_num_char rest = ("", rest).
Proof.
  destruct rest as [|c rest]; [done|]. simpl. by intros [-> _].
Qed.

Lemma span_uint d rest :
  ok_rest rest →
  JsonLoad.span JsonLoad.is_num_char (NilEmpty.string_of_uint d +:+ rest)
  = (NilEmpty.string_of_uint d, rest).
Proof.
  intros Hrest. induction d as [|d IH|d IH|d IH|d IH|d IH|d IH|d IH|d IH|d IH|d IH];
    [by apply ok_rest_span|..];
    simpl; rewrite ?append_cons; simpl; by rewrite IH.
Qed.

Lemma span_int z rest :
  ok_rest rest →
  JsonLoad.span JsonLoad.is_num_char (Py.str_of_int z +:+ rest)
  = (Py.str_of_int z, rest).
Proof.
  intros Hrest. unfold Py.str_of_int.
  destruct (Z.to_int z) as [d|d]; simpl.
  - by apply span_uint.
  - rewrite ?append_cons. simpl. by rewrite span_uint.
Qed.

Lemma number_str_of_int z rest :
  ok_rest rest →
  JsonLoad.number (Py.str_of_int z +:+ rest) = Some (z, rest).
Proof.
  intros Hrest. unfold JsonLoad.number. rewrite span_int by done.
  assert (NilEmpty.int_of_string (Py.str_of_int z) = Some (Z.to_int z)) as ->
    by apply NilEmpty.isi.
  rewrite DecimalZ.of_to, String.eqb_refl. simpl.
  assert (JsonLoad.starts_fraction rest = false) as ->; [|done].
  destruct rest as [|c rest]; [done|]. by destruct Hrest as [_ Hfrac].
Qed.

(** Membership in an explicit list of characters. *)
Ltac in_starts :=
  unfold value_starts, num_starts; cbn [app];
  repeat first [apply list_elem_of_here | apply list_elem_of_further].

Lemma uint_head p :
  ∃ c s, NilEmpty.string_of_uint (Pos.to_uint p) = String c s
         ∧ c ∈ num_starts.
Proof.
  pose proof (DecimalPos.Unsigned.to_uint_nonnil p) as Hnn.
  destruct (Pos.to_uint p); [done|..]; simpl;
    eexists _, _; (split; [reflexivity|]); in_starts.
Qed.

Lemma str_of_int_head z :
  ∃ c s, Py.str_of_int z = String c s ∧ c ∈ num_starts.
Proof.
  unfold Py.str_of_int. destruct z as [|p|p]; simpl.
  - eexists _, _. split; [reflexivity|]. in_starts.
  - apply uint_head.
  - eexists _, _. split; [reflexivity|]. in_starts.
Qed.

Lemma dumps_at_head l v :
  ∃ c s, Json.dumps_at l v = String c s ∧ c ∈ value_starts.
Proof.
  destruct v as [|[]|z|t|vs|m]; simpl;
    try (eexists _, _; split; [reflexivity|]; in_starts).
  - destruct (str_of_int_head z) as (c & s & Hz & Hc).
    exists c, s. split; [done|]. unfold value_starts.
    apply elem_of_app. by right.
  - unfold Json.render_seq. destruct (map _ vs);
      eexists _, _; (split; [reflexivity|]); in_starts.
  - unfold Json.render_seq. destruct (map _ _);
      eexists _, _; (split; [reflexivity|]); in_starts.
Qed.

Lemma value_skip_ws fuel s s' :
  JsonLoad.skip_ws s = JsonLoad.skip_ws s' →
  JsonLoad.value fuel s = JsonLoad.value fuel s'.
Proof. intros Heq. destruct fuel; [done|]. simpl. by rewrite Heq. Qed.

Lemma value_newline_indent fuel l s :
  JsonLoad.value fuel (Json.newline_indent l +:+ s) = JsonLoad.value fuel s.
Proof. apply value_skip_ws, skip_ws_newline_indent. Qed.

Lemma skip_ws_value_start c s :
  c ∈ value_starts → JsonLoad.skip_ws (String c s) = String c s.
Proof.
  unfold value_starts, num_starts. cbn [app]. intros Hc.
  repeat (apply elem_of_cons in Hc as [->|Hc]; [done|]).
  by apply elem_of_nil in Hc.
Qed.

(** Comparisons of lengths of concatenations. *)
Ltac by_lengths :=
  repeat (progress
            (repeat match goal with
                    | H : context [String.length (_ +:+ _)] |- _ =>
                        rewrite length_append in H
                    | |- context [String.length (_ +:+ _)] =>
                        rewrite length_append
                    end;
             cbn [String.length] in *));
  lia.

Lemma ok_rest_newline_indent l s : ok_rest (Json.newline_indent l +:+ s).
Proof. done. Qed.

Lemma ok_rest_comma s : ok_rest (String "," s).
Proof. done. Qed.

Lemma join_cons2 c sep x y l :
  Str.join (String c sep) (x :: y :: l)
  = x +:+ String c (sep +:+ Str.join (String c sep) (y :: l)).
Proof. reflexivity. Qed.

Lemma elements_round f vs l rest fuel :
  vs ≠ [] →
  Forall reads_back vs →
  (String.length
     (Json.newline_indent (S l)
      +:+ Str.join (String "," (Json.newline_indent (S l)))
            (map (Json.dumps_at (S l)) vs)
      +:+ Json.newline_indent l +:+ String "]" rest) < f)%nat →
  (String.length
     (Json.newline_indent (S l)
      +:+ Str.join (String "," (Json.newline_indent (S l)))
            (map (Json.dumps_at (S l)) vs)
      +:+ Json.newline_indent l +:+ String "]" rest) < fuel)%nat →
  JsonLoad.elements (JsonLoad.value f) fuel
    (Json.newline_indent (S l)
     +:+ Str.join (String "," (Json.newline_indent (S l)))
           (map (Json.dumps_at (S l)) vs)
     +:+ Json.newline_indent l +:+ String "]" rest)
  = Some (vs, rest).
Proof.
  intros Hne Hall. revert fuel.
  induction Hall as [|v vs Hv Hall IH]; [done|]. clear Hne.
  intros fuel Hf Hfuel. destruct fuel as [|fuel]; [lia|].
  destruct vs as [|v2 vs].
  - cbn [map Str.join String.concat] in *. cbn [JsonLoad.elements].
    rewrite value_newline_indent.
    rewrite Hv; [|apply ok_rest_newline_indent|by_lengths].
    by rewrite skip_ws_newline_indent.
  - cbn [map] in *. rewrite join_cons2 in Hf, Hfuel |- *.
    cbn [JsonLoad.elements].
    rewrite value_newline_indent.
    rewrite append_assoc, append_cons, append_assoc in Hf, Hfuel |- *.
    rewrite Hv; [|apply ok_rest_comma|by_lengths].
    change (JsonLoad.skip_ws (String "," ?s)) with (String "," s).
    cbn [Ascii.eqb Bool.eqb].
    rewrite IH; [done|done| |]; by_lengths.
Qed.

Lemma render_item_app k t x :
  Json.render_item (k, t) +:+ x
  = String Json.DQUOTE
      (Json.escape k
       +:+ String Json.DQUOTE (String ":" (String " " (t +:+ x)))).
Proof.
  unfold Json.render_item, Json.quote. cbn [fst snd].
  rewrite append_assoc, append_cons, append_assoc, append_cons, append_nil_l.
  by rewrite append_assoc.
Qed.

Lemma members_unfold pv fuel s key s3 :
  JsonLoad.skip_ws s
  = String Json.DQUOTE
      (Json.escape key +:+ String Json.DQUOTE (String ":" s3)) →
  JsonLoad.members pv (S fuel) s
  = match pv s3 with
    | Some (v, r) =>
        match JsonLoad.skip_ws r with
        | String d r' =>
            if Ascii.eqb d "," then
              match JsonLoad.members pv fuel r' with
              | Some (kvs, r'') => Some ((key, v) :: kvs, r'')
              | None => None
              end
            else if Ascii.eqb d "}" then Some ([(key, v)], r')
            else None
        | "" => None
        end
    | None => None
    end.
Proof.
  intros Hs. cbn [JsonLoad.members]. rewrite Hs.
  change (Ascii.eqb Json.DQUOTE Json.DQUOTE) with true. cbv iota.
  rewrite string_body_escape.
  change (JsonLoad.skip_ws (String ":" s3)) with (String ":" s3).
  change (Ascii.eqb ":" ":") with true. by cbv iota.
Qed.

Lemma members_round f kvs l rest fuel :
  kvs ≠ [] →
  Forall (λ kv, reads_back kv.2) kvs →
  (String.length
     (Json.newline_indent (S l)
      +:+ Str.join (String "," (Json.newline_indent (S l)))
            (map Json.render_item
               (map (prod_map id (Json.dumps_at (S l))) kvs))
      +:+ Json.newline_indent l +:+ String "}" rest) < f)%nat →
  (String.length
     (Json.newline_indent (S l)
      +:+ Str.join (String "," (Json.newline_indent (S l)))
            (map Json.render_item
               (map (prod_map id (Json.dumps_at (S l))) kvs))
      +:+ Json.newline_indent l +:+ String "}" rest) < fuel)%nat →
  JsonLoad.members (JsonLoad.value f) fuel
    (Json.newline_indent (S l)
     +:+ Str.join (String "," (Json.newline_indent (S l)))
           (map Json.render_item
              (map (prod_map id (Json.dumps_at (S l))) kvs))
     +:+ Json.newline_indent l +:+ String "}" rest)
  = Some (kvs, rest).
Proof.
  intros Hne Hall. revert fuel.
  induction Hall as [|[k v] kvs Hv Hall IH]; [done|]. clear Hne.
  cbn [snd] in Hv.
  intros fuel Hf Hfuel. destruct fuel as [|fuel]; [lia|].
  destruct kvs as [|kv2 kvs].
  - cbn [map Str.join String.concat prod_map fst snd id] in *.
    rewrite render_item_app in Hf, Hfuel |- *.
    erewrite members_unfold;
      [|by rewrite skip_ws_newline_indent].
    rewrite (value_skip_ws _ _
               (Json.dumps_at (S l) v +:+ Json.newline_indent l
                +:+ String "}" rest)) by done.
    rewrite Hv; [|apply ok_rest_newline_indent|by_lengths].
    by rewrite skip_ws_newline_indent.
  - cbn [map prod_map fst snd id] in *.
    rewrite join_cons2 in Hf, Hfuel |- *.
    rewrite append_assoc, append_cons, append_assoc in Hf, Hfuel |- *.
    rewrite render_item_app in Hf, Hfuel |- *.
    erewrite members_unfold;
      [|by rewrite skip_ws_newline_indent].
    match goal with
    | |- context [JsonLoad.value f (String " " ?s)] =>
        rewrite (value_skip_ws _ (String " " s) s) by done
    end.
    rewrite Hv; [|apply ok_rest_comma|by_lengths].
    change (JsonLoad.skip_ws (String "," ?s)) with (String "," s).
    cbn [Ascii.eqb Bool.eqb].
    rewrite IH; [done|done| |]; by_lengths.
Qed.

Lemma sorted_items_fmap (f : json → string) (m : gmap string json) :
  ∃ kvs, kvs ≡ₚ map_to_list m
         ∧ Json.sorted_items (f <$> m) = map (prod_map id f) kvs.
Proof.
  unfold Json.sorted_items.
  assert (merge_sort Json.key_le (map_to_list (f <$> m))
          ≡ₚ map (prod_map id f) (map_to_list m)) as Hperm.
  { rewrite merge_sort_Permutation. by rewrite map_to_list_fmap. }
  apply Permutation_map_inv in Hperm as (kvs & Heq & Hperm').
  exists kvs. split; [by symmetry|done].
Qed.

Lemma dict_of_permutation (m : gmap string json) kvs :
  kvs ≡ₚ map_to_list m → JsonLoad.dict_of kvs = m.
Proof.
  intros Hperm. unfold JsonLoad.dict_of.
  transitivity (list_to_map (map_to_list m) : gmap string json);
    [|apply list_to_map_to_list].
  apply list_to_map_proper.
  - rewrite reverse_Permutation, Hperm. apply NoDup_fst_map_to_list.
  - by rewrite reverse_Permutation.
Qed.

Lemma value_string fuel x :
  JsonLoad.value (S fuel) (String Json.DQUOTE x)
  = match JsonLoad.string_body x with
    | Some (t, r) => Some (JStr t, r)
    | None => None
    end.
Proof. reflexivity. Qed.

Lemma value_array fuel s :
  JsonLoad.value (S fuel) (String "[" s)
  = match JsonLoad.skip_ws s with
    | String d r =>
        if Ascii.eqb d "]" then Some (JArr [], r)
        else match JsonLoad.elements (JsonLoad.value fuel) fuel s with
             | Some (vs, r') => Some (JArr vs, r')
             | None => None
             end
    | "" => None
    end.
Proof. reflexivity. Qed.

Lemma value_object fuel s :
  JsonLoad.value (S fuel) (String "{" s)
  = match JsonLoad.skip_ws s with
    | String d r =>
        if Ascii.eqb d "}" then Some (JObj ∅, r)
        else match JsonLoad.members (JsonLoad.value fuel) fuel s with
             | Some (kvs, r') => Some (JObj (JsonLoad.dict_of kvs), r')
             | None => None
             end
    | "" => None
    end.
Proof. reflexivity. Qed.

Lemma value_number_start fuel c s :
  c ∈ num_starts →
  JsonLoad.value (S fuel) (String c s)
  = match JsonLoad.number (String c s) with
    | Some (z, r) => Some (JInt z, r)
    | None => None
    end.
Proof.
  unfold num_starts. intros Hc.
  repeat (apply elem_of_cons in Hc as [->|Hc]; [reflexivity|]).
  by apply elem_of_nil in Hc.
Qed.

Lemma value_number fuel z rest :
  ok_rest rest →
  JsonLoad.value (S fuel) (Py.str_of_int z +:+ rest) = Some (JInt z, rest).
Proof.
  intros Hrest.
  pose proof (number_str_of_int z rest Hrest) as Hnum.
  destruct (str_of_int_head z) as (c & s & Hz & Hc).
  rewrite Hz, append_cons in Hnum |- *.
  by rewrite value_number_start, Hnum.
Qed.

Lemma value_start_not_closing c :
  c ∈ value_starts → Ascii.eqb c "]" = false ∧ Ascii.eqb c "}" = false.
Proof.
  unfold value_starts, num_starts. cbn [app]. intros Hc.
  repeat (apply elem_of_cons in Hc as [->|Hc]; [done|]).
  by apply elem_of_nil in Hc.
Qed.

Lemma join_head sep x xs tail :
  ∃ y, Str.join sep (x :: xs) +:+ tail = x +:+ y.
Proof.
  destruct xs as [|x2 xs].
  - by exists tail.
  - exists (sep +:+ Str.join sep (x2 :: xs) +:+ tail).
    change (Str.join sep (x :: x2 :: xs))
      with (x +:+ sep +:+ Str.join sep (x2 :: xs)).
    by rewrite !append_assoc.
Qed.

Lemma join_skip_ws sep l v xs tail :
  ∃ c r, JsonLoad.skip_ws (Str.join sep (Json.dumps_at l v :: xs) +:+ tail)
         = String c r
         ∧ c ∈ value_starts.
Proof.
  destruct (join_head sep (Json.dumps_at l v) xs tail) as [y ->].
  destruct (dumps_at_head l v) as (c & s & -> & Hc).
  exists c, (s +:+ y). rewrite append_cons.
  split; [by apply skip_ws_value_start|done].
Qed.

(** Concatenations nested to the right, with leading characters outside. *)
Ltac normalise_append H :=
  repeat first [ rewrite append_assoc in H
               | rewrite append_cons in H
               | rewrite append_nil_l in H ];
  repeat first [ rewrite append_assoc
               | rewrite append_cons
               | rewrite append_nil_l ].

(** Every document is read back from its encoding. *)
Lemma reads_back_all v : reads_back v.
Proof.
  remember (json_size v) as n eqn:Hn. revert v Hn.
  induction n as [n IH] using lt_wf_ind.
  intros v -> l rest fuel Hrest Hlen.
  destruct fuel as [|fuel]; [lia|].
  destruct v as [|[]|z|t|vs|m].
  - reflexivity.
  - reflexivity.
  - reflexivity.
  - by apply value_number.
  - cbn [Json.dumps_at]. unfold Json.quote.
    rewrite append_cons, append_assoc, append_cons, append_nil_l.
    by rewrite value_string, string_body_escape.
  - cbn [Json.dumps_at] in *. unfold Json.render_seq in *.
    destruct vs as [|v vs]; [reflexivity|].
    cbn [map] in *.
    normalise_append Hlen.
    rewrite value_array, skip_ws_newline_indent.
    destruct (join_skip_ws (String "," (Json.newline_indent (S l)))
                (S l) v (map (Json.dumps_at (S l)) vs)
                (Json.newline_indent l +:+ String "]" rest))
      as (c & r & -> & Hc).
    destruct (value_start_not_closing c Hc) as [-> _].
    pose proof (elements_round fuel (v :: vs) l rest fuel) as Hround.
    cbn [map] in Hround. rewrite Hround; [done|done| | |].
    + apply Forall_forall. intros x Hx.
      eapply IH; [|reflexivity]. by apply json_size_arr.
    + by_lengths.
    + by_lengths.
  - cbn [Json.dumps_at] in *.
    destruct (sorted_items_fmap (Json.dumps_at (S l)) m)
      as (kvs & Hperm & Hitems).
    rewrite Hitems in Hlen |- *. unfold Json.render_seq in *.
    destruct kvs as [|[k v] kvs].
    { symmetry in Hperm. apply Permutation_nil_r in Hperm.
      apply map_to_list_empty_iff in Hperm as ->. reflexivity. }
    cbn [map] in Hlen |- *.
    normalise_append Hlen.
    rewrite value_object, skip_ws_newline_indent.
    destruct (join_head (String "," (Json.newline_indent (S l)))
                (Json.render_item (prod_map id (Json.dumps_at (S l)) (k, v)))
                (map Json.render_item
                   (map (prod_map id (Json.dumps_at (S l))) kvs))
                (Json.newline_indent l +:+ String "}" rest)) as [y Hy].
    cbn [prod_map fst snd id] in Hy, Hlen |- *.
    rewrite render_item_app in Hy.
    apply (f_equal JsonLoad.skip_ws) in Hy.
    change (JsonLoad.skip_ws (String Json.DQUOTE ?x))
      with (String Json.DQUOTE x) in Hy.
    rewrite Hy. clear Hy.
    change (Ascii.eqb Json.DQUOTE "}") with false. cbv iota.
    pose proof (members_round fuel ((k, v) :: kvs) l rest fuel) as Hround.
    cbn [map prod_map fst snd id] in Hround. rewrite Hround; [|done| | |].
    + by rewrite (dict_of_permutation m).
    + apply Forall_forall. intros [k' v'] Hin. cbn [snd].
      eapply IH; [|reflexivity]. apply (json_size_obj m k').
      apply elem_of_map_to_list. by rewrite <- Hperm.
    + by_lengths.
    + by_lengths.
Qed.

(** The decoder inverts the encoder. *)
Lemma loads_dumps v : JsonLoad.loads (Json.dumps v) = Some v.
Proof.
  unfold JsonLoad.loads, Json.dumps.
  pose proof (reads_back_all v O "" (S (String.length (Json.dumps_at 0 v))))
    as Hback.
  rewrite append_nil_r in Hback. rewrite Hback; [done|done|lia].
Qed.

(** C7: with a [json.load] that reads back what [json.dump] writes, a
    second run against the same release list and the same manifests, at any
    later time, leaves at the target path exactly the text the first run
    left there. *)
Theorem second_run_is_byte_identical json_load env later w :
  (∀ v, json_load (Json.dumps v) = Some v) →
  fs (main json_load (at_time env later) (main json_load env w).2).2 !! target
  = fs (main json_load env w).2 !! target.
Proof.
  intros Hback. apply second_run_same_file. intros vs _. apply Hback.
Qed.

Lemma second_run_is_byte_identical_witness :
  fs (main JsonLoad.loads
        (at_time (upstream [release_123] (Some manifest_example)) later_clock)
        (main JsonLoad.loads (upstream [release_123] (Some manifest_example))
           world_with_file).2).2 !! target
  = fs (main JsonLoad.loads (upstream [release_123] (Some manifest_example))
          world_with_file).2 !! target.
Proof.
  apply (second_run_is_byte_identical JsonLoad.loads
           (upstream [release_123] (Some manifest_example)) later_clock
           world_with_file).
  exact loads_dumps.
Defined.

(** The two runs of the witness, evaluated: both leave the same text, and
    the second run found the first run's record up to date. *)
Lemma two_runs_evaluated :
  let env := upstream [release_123] (Some manifest_example) in
  let w1 := (main JsonLoad.loads env world_with_file).2 in
  let w2 := (main JsonLoad.loads (at_time env later_clock) w1).2 in
  fs w1 !! target = Some (Json.dumps (JObj {[ "1.2.3" := stored_123 ]}))
  ∧ fs w2 !! target = Some (Json.dumps (JObj {[ "1.2.3" := stored_123 ]}))
  ∧ requested w1 = [api_url; checksums_url "v1.2.3"]
  ∧ requested w2 = [api_url; checksums_url "v1.2.3"; api_url]
  ∧ fs w2 !! "versions/versions.json.bak-20240309_070500" = Some "old"
  ∧ fs w2 !! "versions/versions.json.bak-20240309_070630"
    = Some (Json.dumps (JObj {[ "1.2.3" := stored_123 ]})).
Proof. vm_compute. split_and!; reflexivity. Qed.

(** * Further properties *)

(** ** The file-name pattern *)

Lemma lit_app p s : Str.lit p (p +:+ s) = Some s.
Proof.
  induction p as [|c p IH]; [by destruct s|].
  rewrite append_cons. simpl. by rewrite Ascii.eqb_refl.
Qed.

Lemma lit_Some p s r : Str.lit p s = Some r → s = p +:+ r.
Proof.
  revert s. induction p as [|c p IH]; intros s; simpl.
  { destruct s; by intros [= <-]. }
  destruct s as [|a s]; [done|].
  destruct (Ascii.eqb c a) eqn:Hc; [|done].
  apply Ascii.eqb_eq in Hc as <-. intros Hr%IH.
  by rewrite append_cons, Hr.
Qed.

Lemma greedy_plus_stuck {A} cls s (k : string → string → option A) :
  head_in cls s = false → Re.greedy_plus cls s k = None.
Proof. destruct s as [|c s]; simpl; [done|]. by intros ->. Qed.

(** A greedy repetition first offers its continuation the whole run. *)
Lemma greedy_plus_longest {A} cls run rest (k : string → string → option A) x :
  run ≠ "" →
  all_chars cls run = true →
  head_in cls rest = false →
  k run rest = Some x →
  Re.greedy_plus cls (run +:+ rest) k = Some x.
Proof.
  revert k. induction run as [|c run IH]; intros k Hne Hall Hrest Hk; [done|].
  simpl in Hall. apply andb_true_iff in Hall as [Hc Hall].
  rewrite append_cons. simpl. rewrite Hc.
  destruct run as [|c2 run].
  - rewrite append_nil_l, greedy_plus_stuck by done. done.
  - by rewrite (IH (λ m r, k (String c m) r)).
Qed.

(** Whatever a greedy repetition hands on is a non-empty run of the class. *)
Lemma greedy_plus_Some {A} cls s (k : string → string → option A) x :
  Re.greedy_plus cls s k = Some x →
  ∃ m r, s = m +:+ r ∧ m ≠ "" ∧ all_chars cls m = true ∧ k m r = Some x.
Proof.
  revert k. induction s as [|c s IH]; intros k; simpl; [done|].
  destruct (cls c) eqn:Hc; [|done].
  destruct (Re.greedy_plus cls s (λ m r, k (String c m) r)) as [y|] eqn:Hrec.
  - intros [= ->]. apply IH in Hrec as (m & r & -> & Hm & Hall & Hk).
    exists (String c m), r. rewrite append_cons. simpl. by rewrite Hc, Hall.
  - intros Hk. exists (String c ""), s. simpl. by rewrite Hc.
Qed.

Lemma search_asset_name_at s g :
  Re.asset_name_at s = Some g → Re.search_asset_name s = Some g.
Proof. intros Hat. destruct s; [done|]. simpl. by rewrite Hat. Qed.

(** X1: the pattern finds the platform of every archive name of the form
    [scarb-v<version>-<platform>.tar.gz] or [.zip], whatever follows the
    extension: the version a non-empty run of digits and dots, the platform
    a non-empty run of word characters and hyphens. *)
Theorem search_asset_name_of_archive version platform extension rest :
  version ≠ "" →
  all_chars Re.digit_or_dot version = true →
  platform ≠ "" →
  all_chars Re.word_or_hyphen platform = true →
  extension = "tar.gz" ∨ extension = "zip" →
  Re.search_asset_name (asset_file_name version platform extension +:+ rest)
  = Some platform.
Proof.
  intros Hv Hvall Hp Hpall Hext. apply search_asset_name_at.
  unfold asset_file_name, Re.asset_name_at.
  rewrite !append_assoc, lit_app.
  apply greedy_plus_longest; [done|done|done|].
  rewrite lit_app.
  apply greedy_plus_longest; [done|done|done|].
  rewrite lit_app. unfold Re.alt_lit.
  destruct Hext as [-> | ->].
  - by rewrite lit_app.
  - rewrite lit_app.
    assert (Str.lit "tar.gz" ("zip" +:+ rest) = None) as -> by reflexivity.
    done.
Qed.

Lemma search_asset_name_of_archive_witness :
  Re.search_asset_name
    (asset_file_name "2.8.4" "aarch64-apple-darwin" "tar.gz" +:+ ".sha256")
  = Some "aarch64-apple-darwin".
Proof.
  apply (search_asset_name_of_archive "2.8.4" "aarch64-apple-darwin" "tar.gz"
           ".sha256").
  - discriminate.
  - reflexivity.
  - discriminate.
  - reflexivity.
  - by left.
Defined.

Lemma asset_name_at_Some s p :
  Re.asset_name_at s = Some p →
  ∃ version extension rest,
    s = asset_file_name version p extension +:+ rest
    ∧ version ≠ "" ∧ all_chars Re.digit_or_dot version = true
    ∧ p ≠ "" ∧ all_chars Re.word_or_hyphen p = true
    ∧ (extension = "tar.gz" ∨ extension = "zip").
Proof.
  unfold Re.asset_name_at.
  destruct (Str.lit "scarb-v" s) as [s1|] eqn:H1; [|done].
  apply lit_Some in H1 as ->.
  intros (version & s2 & -> & Hv & Hvall & Hk)%greedy_plus_Some.
  destruct (Str.lit "-" s2) as [s3|] eqn:H3; [|done].
  apply lit_Some in H3 as ->.
  apply greedy_plus_Some in Hk as (platform & s4 & -> & Hp & Hpall & Hk).
  destruct (Str.lit "." s4) as [s5|] eqn:H5; [|done].
  apply lit_Some in H5 as ->.
  unfold Re.alt_lit in Hk.
  destruct (Str.lit "tar.gz" s5) as [r|] eqn:Htar.
  - apply lit_Some in Htar as ->. simplify_eq.
    exists version, "tar.gz", r. unfold asset_file_name.
    rewrite !append_assoc. split_and!; auto.
  - destruct (Str.lit "zip" s5) as [r|] eqn:Hzip; [|done].
    apply lit_Some in Hzip as ->. simplify_eq.
    exists version, "zip", r. unfold asset_file_name.
    rewrite !append_assoc. split_and!; auto.
Qed.

Lemma search_asset_name_Some s p :
  Re.search_asset_name s = Some p →
  ∃ before version extension rest,
    s = before +:+ asset_file_name version p extension +:+ rest
    ∧ version ≠ "" ∧ all_chars Re.digit_or_dot version = true
    ∧ p ≠ "" ∧ all_chars Re.word_or_hyphen p = true
    ∧ (extension = "tar.gz" ∨ extension = "zip").
Proof.
  induction s as [|c s IH]; [done|]; simpl.
  - destruct (Re.asset_name_at (String c s)) as [g|] eqn:Hat.
    + intros [= ->]. apply asset_name_at_Some in Hat
        as (version & extension & rest & Hs & Hrest).
      exists "", version, extension, rest. by rewrite append_nil_l.
    + intros (before & version & extension & rest & -> & Hrest)%IH.
      exists (String c before), version, extension, rest.
      by rewrite append_cons.
Qed.

(** X2: a platform the pattern finds is a non-empty run of word characters
    and hyphens that stands in the searched text inside an archive name:
    behind [scarb-v], a non-empty run of digits and dots and a hyphen, and
    before [.tar.gz] or [.zip]. *)
Theorem search_asset_name_sound s p :
  Re.search_asset_name s = Some p →
  ∃ before version extension rest,
    s = before +:+ asset_file_name version p extension +:+ rest
    ∧ version ≠ "" ∧ all_chars Re.digit_or_dot version = true
    ∧ p ≠ "" ∧ all_chars Re.word_or_hyphen p = true
    ∧ (extension = "tar.gz" ∨ extension = "zip").
Proof. apply search_asset_name_Some. Qed.

Lemma search_asset_name_sound_witness :
  ∃ before version extension rest,
    "dist/scarb-v2.8.4-x86_64-pc-windows-msvc.zip"
    = before +:+ asset_file_name version "x86_64-pc-windows-msvc" extension
      +:+ rest
    ∧ version ≠ "" ∧ all_chars Re.digit_or_dot version = true
    ∧ "x86_64-pc-windows-msvc" ≠ ""
    ∧ all_chars Re.word_or_hyphen "x86_64-pc-windows-msvc" = true
    ∧ (extension = "tar.gz" ∨ extension = "zip").
Proof.
  apply (search_asset_name_sound "dist/scarb-v2.8.4-x86_64-pc-windows-msvc.zip"
           "x86_64-pc-windows-msvc").
  reflexivity.
Defined.


(** ** The manifest parser, line by line *)

(** What one line does to the mapping read so far. *)
Lemma parse_line_cases acc line :
  (parse_line acc line = Raise ValueError ∧ (3 ≤ length (Str.split line))%nat)
  ∨ (∃ c f p, Str.split line = [c; f] ∧ Re.search_asset_name f = Some p
              ∧ parse_line acc line = Ok (<[p := c]> acc))
  ∨ (parse_line acc line = Ok acc ∧ (length (Str.split line) < 3)%nat
     ∧ ∀ c f, Str.split line = [c; f] → Re.search_asset_name f = None).
Proof.
  unfold parse_line.
  destruct (Str.is_empty (Str.strip line)) eqn:Hblank.
  { apply split_blank in Hblank. rewrite Hblank. right; right.
    split_and!; [done|simpl; lia|done]. }
  destruct (Str.split line) as [|a [|b [|c rest]]] eqn:Hparts; simpl.
  - right; right. split_and!; [done|lia|done].
  - right; right. split_and!; [done|lia|done].
  - destruct (Re.search_asset_name b) as [p|] eqn:Hsearch.
    + right; left. by exists a, b, p.
    + right; right. split_and!; [done|lia|]. by intros ? ? [= <- <-].
  - left. split; [done|lia].
Qed.

Lemma parse_line_union acc line :
  parse_line acc line
  = match parse_line ∅ line with
    | Ok m => Ok (m ∪ acc)
    | Raise e => Raise e
    end.
Proof.
  destruct (parse_line_cases ∅ line)
    as [[Hr Hlen] | [(c & f & p & Hparts & Hsearch & Hok) | (Hok & Hlen & Hno)]].
  - rewrite Hr. by apply parse_line_many_tokens.
  - rewrite Hok. unfold parse_line in *.
    destruct (Str.is_empty (Str.strip line)); [done|].
    rewrite Hparts. simpl. rewrite Hsearch.
    by rewrite <-insert_union_l, (left_id_L ∅ (∪)).
  - rewrite Hok, (left_id_L ∅ (∪)).
    destruct (parse_line_cases acc line)
      as [[_ Hlen'] | [(c & f & p & Hparts & Hsearch & _) | (Hok' & _)]].
    + lia.
    + by rewrite (Hno _ _ Hparts) in Hsearch.
    + done.
Qed.

(** Parsing on top of a mapping is parsing from nothing, laid over it. *)
Lemma parse_lines_union acc lines :
  parse_lines acc lines
  = match parse_lines ∅ lines with
    | Ok m => Ok (m ∪ acc)
    | Raise e => Raise e
    end.
Proof.
  revert acc. induction lines as [|line lines IH]; intros acc; simpl.
  { by rewrite (left_id_L ∅ (∪)). }
  rewrite (parse_line_union acc line).
  destruct (parse_line ∅ line) as [m1|e]; [|done].
  rewrite (IH (m1 ∪ acc)), (IH m1).
  destruct (parse_lines ∅ lines) as [mr|e]; [|done].
  by rewrite (assoc_L (∪)).
Qed.

Lemma parse_lines_Raise acc lines e :
  parse_lines acc lines = Raise e
  ↔ e = ValueError
    ∧ ∃ line, line ∈ lines ∧ (3 ≤ length (Str.split line))%nat.
Proof.
  revert acc. induction lines as [|line lines IH]; intros acc; simpl.
  { split; [done|]. intros (_ & l & Hin & _). by apply elem_of_nil in Hin. }
  destruct (parse_line_cases acc line)
    as [[Hr Hlen] | [(c & f & p & Hparts & Hsearch & Hok) | (Hok & Hlen & Hno)]].
  - rewrite Hr. split.
    + intros [= <-]. split; [done|]. exists line. split; [apply list_elem_of_here|done].
    + by intros (-> & _).
  - rewrite Hok, IH. split.
    + intros (-> & l & Hin & Hl). split; [done|]. exists l.
      split; [by apply list_elem_of_further|done].
    + intros (-> & l & Hin & Hl). split; [done|].
      apply elem_of_cons in Hin as [-> | Hin]; [|by exists l].
      rewrite Hparts in Hl. simpl in Hl. lia.
  - rewrite Hok, IH. split.
    + intros (-> & l & Hin & Hl). split; [done|]. exists l.
      split; [by apply list_elem_of_further|done].
    + intros (-> & l & Hin & Hl). split; [done|].
      apply elem_of_cons in Hin as [-> | Hin]; [lia|by exists l].
Qed.

(** X3: the manifest parser raises exactly when some line of the text has
    three or more whitespace-separated tokens, and what it raises then is
    [ValueError]; on every other text it returns a mapping. *)
Theorem parse_checksums_raises_iff text tag e :
  parse_checksums text tag = Raise e
  ↔ e = ValueError
    ∧ ∃ line, line ∈ Str.split_on Str.LF text
              ∧ (3 ≤ length (Str.split line))%nat.
Proof. apply parse_lines_Raise. Qed.

Lemma parse_lines_entry acc lines m p c :
  parse_lines acc lines = Ok m →
  m !! p = Some c →
  acc !! p = Some c
  ∨ ∃ line f, line ∈ lines ∧ Str.split line = [c; f]
              ∧ Re.search_asset_name f = Some p.
Proof.
  revert acc. induction lines as [|line lines IH]; intros acc; simpl.
  { intros [= ->]. by left. }
  destruct (parse_line_cases acc line)
    as [[Hr Hlen] | [(c' & f & p' & Hparts & Hsearch & Hok) | (Hok & _)]].
  - by rewrite Hr.
  - rewrite Hok. intros Hrest Hm.
    destruct (IH _ Hrest Hm) as [Hacc | (l & f' & Hin & Hl & Hf)].
    + destruct (decide (p' = p)) as [-> | Hne].
      * rewrite lookup_insert_eq in Hacc. injection Hacc as ->.
        right. exists line, f. split; [apply list_elem_of_here|done].
      * rewrite lookup_insert_ne in Hacc by done. by left.
    + right. exists l, f'. split; [by apply list_elem_of_further|done].
  - rewrite Hok. intros Hrest Hm.
    destruct (IH _ Hrest Hm) as [Hacc | (l & f' & Hin & Hl & Hf)]; [by left|].
    right. exists l, f'. split; [by apply list_elem_of_further|done].
Qed.

(** X4: every entry of the mapping the manifest parser returns was read
    from a line of the text: a line of exactly two tokens, the first the
    checksum stored, the second a file name in which the pattern finds the
    platform it is stored under. *)
Theorem parse_checksums_entry_from_line text tag m p c :
  parse_checksums text tag = Ok m →
  m !! p = Some c →
  ∃ line f, line ∈ Str.split_on Str.LF text
            ∧ Str.split line = [c; f]
            ∧ Re.search_asset_name f = Some p.
Proof.
  intros Hparse Hm.
  destruct (parse_lines_entry _ _ _ _ _ Hparse Hm) as [Hacc | Hline]; [|done].
  by rewrite lookup_empty in Hacc.
Qed.

Lemma parse_checksums_entry_from_line_witness :
  ∃ line f, line ∈ Str.split_on Str.LF manifest_example
            ∧ Str.split line = ["abcd1234"; f]
            ∧ Re.search_asset_name f = Some "x86_64-linux".
Proof.
  apply (parse_checksums_entry_from_line manifest_example "v1.2.3"
           {[ "x86_64-linux" := "abcd1234" ]}).
  - vm_compute. reflexivity.
  - reflexivity.
Defined.

Lemma parse_lines_keeps acc lines m p :
  parse_lines acc lines = Ok m →
  (∀ l c f, l ∈ lines → Str.split l = [c; f] →
            Re.search_asset_name f ≠ Some p) →
  m !! p = acc !! p.
Proof.
  revert acc. induction lines as [|line lines IH]; intros acc; simpl.
  { by intros [= ->]. }
  intros Hparse Hno.
  assert (∀ l c f, l ∈ lines → Str.split l = [c; f] →
                   Re.search_asset_name f ≠ Some p) as Hno'.
  { intros l c f Hin. apply Hno. by apply list_elem_of_further. }
  destruct (parse_line_cases acc line)
    as [[Hr Hlen] | [(c' & f & p' & Hparts & Hsearch & Hok) | (Hok & _)]].
  - by rewrite Hr in Hparse.
  - rewrite Hok in Hparse. rewrite (IH _ Hparse Hno').
    apply lookup_insert_ne. intros ->.
    by apply (Hno line c' f (list_elem_of_here _ _) Hparts).
  - rewrite Hok in Hparse. by apply IH.
Qed.

(** X5: when several lines of a manifest name the same platform, the last
    of them decides: a two-token line whose file name gives platform [p],
    with no line for [p] after it, leaves its checksum under [p] in the
    mapping returned. *)
Theorem parse_checksums_last_line_wins text tag before line after c f p m :
  Str.split_on Str.LF text = before ++ line :: after →
  Str.split line = [c; f] →
  Re.search_asset_name f = Some p →
  (∀ l c' f', l ∈ after → Str.split l = [c'; f'] →
              Re.search_asset_name f' ≠ Some p) →
  parse_checksums text tag = Ok m →
  m !! p = Some c.
Proof.
  unfold parse_checksums. intros -> Hparts Hsearch Hlast.
  rewrite parse_lines_app.
  destruct (parse_lines ∅ before) as [m1|e]; [|done]. simpl.
  destruct (parse_line_cases m1 line)
    as [[_ Hlen] | [(c' & f' & p' & Hparts' & Hsearch' & Hok) | (_ & _ & Hno)]].
  - rewrite Hparts in Hlen. simpl in Hlen. lia.
  - rewrite Hok. rewrite Hparts in Hparts'. injection Hparts' as <- <-.
    rewrite Hsearch in Hsearch'. injection Hsearch' as <-.
    intros Hrest. rewrite (parse_lines_keeps _ _ _ _ Hrest Hlast).
    apply lookup_insert_eq.
  - by rewrite (Hno _ _ Hparts) in Hsearch.
Qed.

Lemma parse_checksums_last_line_wins_witness :
  ({[ "x86_64-linux" := "ffff0000" ]} : gmap string string) !! "x86_64-linux"
  = Some "ffff0000".
Proof.
  apply (parse_checksums_last_line_wins
           (manifest_example +:+ Str.nl
            +:+ "ffff0000 scarb-v1.2.3-x86_64-linux.zip" +:+ Str.nl
            +:+ "abcd1234 README.md")
           "v1.2.3" [manifest_example]
           "ffff0000 scarb-v1.2.3-x86_64-linux.zip" ["abcd1234 README.md"]
           "ffff0000" "scarb-v1.2.3-x86_64-linux.zip" "x86_64-linux").
  - reflexivity.
  - reflexivity.
  - reflexivity.
  - intros l c' f' Hin%list_elem_of_singleton Hparts. subst l.
    injection Hparts as <- <-. discriminate.
  - vm_compute. reflexivity.
Defined.

(** X6: a manifest made of two texts joined by a line feed parses to the
    mapping of the second laid over the mapping of the first: where both
    name a platform, the second text's checksum stands. *)
Theorem parse_checksums_joined a b tag ma mb :
  parse_checksums a tag = Ok ma →
  parse_checksums b tag = Ok mb →
  parse_checksums (a +:+ Str.nl +:+ b) tag = Ok (mb ∪ ma).
Proof.
  unfold parse_checksums. intros Ha Hb.
  rewrite split_on_lines, parse_lines_app, Ha, parse_lines_union.
  by rewrite Hb.
Qed.

Lemma parse_checksums_joined_witness :
  parse_checksums
    (manifest_example +:+ Str.nl +:+ "ffff0000 scarb-v1.2.3-x86_64-linux.zip")
    "v1.2.3"
  = Ok ({[ "x86_64-linux" := "ffff0000" ]} ∪ {[ "x86_64-linux" := "abcd1234" ]}).
Proof.
  apply (parse_checksums_joined manifest_example
           "ffff0000 scarb-v1.2.3-x86_64-linux.zip" "v1.2.3").
  - vm_compute. reflexivity.
  - vm_compute. reflexivity.
Defined.


Lemma split_tokens s :
  Forall (λ t, t ≠ "" ∧ all_chars not_space t = true) (Str.split s).
Proof.
  induction s as [|c s IH]; simpl; [constructor|].
  destruct (Str.is_space c) eqn:Hc; [done|].
  assert (all_chars not_space (String c "") = true) as Hone.
  { simpl. unfold not_space. by rewrite Hc. }
  destruct s as [|c' s']; [by repeat constructor|].
  destruct (Str.is_space c') eqn:Hc'.
  { constructor; [done|]. exact IH. }
  destruct (Str.split (String c' s')) as [|w ws]; [by repeat constructor|].
  inversion IH as [|? ? [Hw Hall] Hws]; subst.
  constructor; [|done]. split; [done|].
  simpl. unfold not_space at 1. by rewrite Hc.
Qed.

(** X7: in the mapping the manifest parser returns, every key is a
    non-empty run of word characters and hyphens, and every checksum is a
    non-empty token without white space. *)
Theorem parse_checksums_entry_shape text tag m p c :
  parse_checksums text tag = Ok m →
  m !! p = Some c →
  p ≠ "" ∧ all_chars Re.word_or_hyphen p = true
  ∧ c ≠ "" ∧ all_chars not_space c = true.
Proof.
  intros Hparse Hm.
  destruct (parse_lines_entry _ _ _ _ _ Hparse Hm)
    as [Hacc | (line & f & _ & Hparts & Hsearch)].
  { by rewrite lookup_empty in Hacc. }
  apply search_asset_name_Some in Hsearch
    as (_ & _ & _ & _ & _ & _ & _ & Hp & Hpall & _).
  pose proof (split_tokens line) as Htok. rewrite Hparts in Htok.
  inversion Htok as [|? ? [Hc Hcall] _]; subst. done.
Qed.

Lemma parse_checksums_entry_shape_witness :
  "x86_64-linux" ≠ "" ∧ all_chars Re.word_or_hyphen "x86_64-linux" = true
  ∧ "abcd1234" ≠ "" ∧ all_chars not_space "abcd1234" = true.
Proof.
  apply (parse_checksums_entry_shape manifest_example "v1.2.3"
           {[ "x86_64-linux" := "abcd1234" ]}).
  - vm_compute. reflexivity.
  - reflexivity.
Defined.

(** ** Assets and download counts *)

Lemma get_asset_info_fold (acc : gmap string json) assets n :
  foldl (λ m a, <[a_name a := asset_info a]> m) acc assets !! n
  = match last (filter (λ a, a_name a = n) assets) with
    | Some a => Some (asset_info a)
    | None => acc !! n
    end.
Proof.
  induction assets as [|x assets IH] using rev_ind; [done|].
  rewrite foldl_snoc, filter_app.
  destruct (decide (a_name x = n)) as [Hx | Hx].
  - rewrite (filter_cons_True (λ a, a_name a = n) x [] Hx), filter_nil.
    rewrite last_snoc, Hx. apply lookup_insert_eq.
  - rewrite (filter_cons_False (λ a, a_name a = n) x [] Hx), filter_nil.
    rewrite app_nil_r. by rewrite lookup_insert_ne.
Qed.

(** X8: the asset table of a release holds, under a name, the information
    of the last asset of the list that carries the name, and nothing under
    a name no asset carries. *)
Theorem get_asset_info_lookup release n :
  get_asset_info release !! n
  = asset_info <$> last (filter (λ a, a_name a = n) (r_assets release)).
Proof.
  unfold get_asset_info. rewrite get_asset_info_fold.
  by destruct (last _).
Qed.

Lemma download_fold acc assets :
  foldl (λ acc a, acc + a_download_count a) acc assets
  = acc + foldl (λ acc a, acc + a_download_count a) 0 assets.
Proof.
  revert acc. induction assets as [|a assets IH]; intros acc; simpl; [lia|].
  rewrite (IH (acc + a_download_count a)), (IH (0 + a_download_count a)). lia.
Qed.

(** X9: the download count of a release does not depend on the order in
    which its assets are listed. *)
Theorem download_total_permutation r1 r2 :
  r_assets r1 ≡ₚ r_assets r2 →
  download_total r1 = download_total r2.
Proof.
  unfold download_total. generalize 0.
  intros z Hperm. revert z.
  induction Hperm as [|a l1 l2 _ IH|a b l|l1 l2 l3 _ IH1 _ IH2];
    intros z; simpl.
  - done.
  - apply IH.
  - f_equal. lia.
  - by rewrite IH1.
Qed.

Lemma download_total_permutation_witness :
  download_total (with_assets release_123 [linux_asset; windows_asset])
  = download_total (with_assets release_123 [windows_asset; linux_asset]).
Proof.
  apply (download_total_permutation
           (with_assets release_123 [linux_asset; windows_asset])
           (with_assets release_123 [windows_asset; linux_asset])).
  simpl. apply perm_swap.
Defined.

(** X10: when no asset of a release has a negative download count, the
    download count of the release is not negative and no asset's count
    exceeds it. *)
Theorem download_total_bounds release :
  (∀ a, a ∈ r_assets release → 0 ≤ a_download_count a) →
  0 ≤ download_total release
  ∧ ∀ a, a ∈ r_assets release → a_download_count a ≤ download_total release.
Proof.
  unfold download_total.
  induction (r_assets release) as [|x assets IH]; intros Hpos; simpl.
  { split; [lia|]. intros a Hin. by apply elem_of_nil in Hin. }
  rewrite download_fold.
  destruct IH as [Htot Hle].
  { intros a Hin. apply Hpos. by apply list_elem_of_further. }
  pose proof (Hpos x (list_elem_of_here _ _)) as Hx.
  split; [lia|].
  intros a [-> | Hin]%elem_of_cons; [lia|].
  specialize (Hle a Hin). lia.
Qed.

Lemma download_total_bounds_witness :
  0 ≤ download_total (with_assets release_123 [linux_asset; windows_asset])
  ∧ ∀ a, a ∈ r_assets (with_assets release_123 [linux_asset; windows_asset]) →
         a_download_count a
         ≤ download_total (with_assets release_123 [linux_asset; windows_asset]).
Proof.
  apply (download_total_bounds
           (with_assets release_123 [linux_asset; windows_asset])).
  simpl. intros a [-> | [-> | Hin]%elem_of_cons]%elem_of_cons.
  - simpl. lia.
  - simpl. lia.
  - by apply elem_of_nil in Hin.
Defined.


(** ** Comments in a changelog *)

Lemma lazy_any_unfold {A} s (k : string → option A) :
  Re.lazy_any s k
  = match k s with
    | Some x => Some x
    | None => match s with
              | String _ s' => Re.lazy_any s' k
              | "" => None
              end
    end.
Proof. by destruct s. Qed.

Lemma contains_cons p a s :
  Str.contains p (String a s) = String.prefix p (String a s) || Str.contains p s.
Proof. done. Qed.

Lemma prefix_cons a p b s :
  String.prefix (String a p) (String b s) = Ascii.eqb a b && String.prefix p s.
Proof.
  cbn [String.prefix]. destruct (ascii_dec a b) as [->|Hne].
  - by rewrite Ascii.eqb_refl.
  - by apply Ascii.eqb_neq in Hne as ->.
Qed.

(** [str.startswith], by way of the literal matcher. *)
Lemma prefix_lit p s :
  String.prefix p s = match Str.lit p s with Some _ => true | None => false end.
Proof.
  revert s. induction p as [|a p IH]; intros s; [by destruct s|].
  destruct s as [|b s]; [done|].
  rewrite prefix_cons, IH. simpl. by destruct (Ascii.eqb a b).
Qed.

Lemma lit_prefix p s r : Str.lit p s = Some r → String.prefix p s = true.
Proof. intros Hlit. by rewrite prefix_lit, Hlit. Qed.

Lemma lit_None p s : String.prefix p s = false → Str.lit p s = None.
Proof. rewrite prefix_lit. by destruct (Str.lit p s). Qed.

Lemma contains_app_r p a s :
  Str.contains p s = true → Str.contains p (a +:+ s) = true.
Proof.
  intros Hs. induction a as [|c a IH]; [done|].
  rewrite append_cons, contains_cons, IH. apply orb_true_r.
Qed.

Lemma lazy_any_lit_contains p s r :
  Re.lazy_any s (λ x, Str.lit p x) = Some r → Str.contains p s = true.
Proof.
  induction s as [|a s IH]; rewrite lazy_any_unfold.
  - destruct (Str.lit p "") eqn:Hlit; [|done].
    intros _. apply lit_prefix in Hlit. cbn [Str.contains]. by rewrite Hlit.
  - destruct (Str.lit p (String a s)) eqn:Hlit.
    + intros _. apply lit_prefix in Hlit. by rewrite contains_cons, Hlit.
    + intros Hrec%IH. rewrite contains_cons, Hrec. apply orb_true_r.
Qed.

Lemma comment_at_contains s rest :
  Re.comment_at s = Some rest →
  Str.contains "<!--" s = true ∧ Str.contains "-->" s = true.
Proof.
  unfold Re.comment_at.
  destruct (Str.lit "<!--" s) as [s1|] eqn:Hopen; [|done].
  intros Hclose%lazy_any_lit_contains.
  pose proof (lit_prefix _ _ _ Hopen) as Hp.
  apply lit_Some in Hopen as ->. split.
  - destruct s1; simpl in *; by rewrite ?Hp.
  - by apply contains_app_r.
Qed.

Lemma sub_comments_from_cons a s :
  Re.comment_at (String a s) = None →
  Re.sub_comments_from 0 (String a s) = String a (Re.sub_comments_from 0 s).
Proof. intros Hno. simpl Re.sub_comments_from. by rewrite Hno. Qed.

Lemma sub_comments_from_comment a s rest :
  Re.comment_at (String a s) = Some rest →
  Re.sub_comments_from 0 (String a s)
  = Re.sub_comments_from (String.length s - String.length rest) s.
Proof. intros Hat. simpl Re.sub_comments_from. by rewrite Hat. Qed.

Lemma contains_tail p a s :
  Str.contains p (String a s) = false → Str.contains p s = false.
Proof. rewrite contains_cons. by intros [_ ?]%orb_false_iff. Qed.

(** X11: a changelog body without the text [<!--], or without the text
    [-->], has no comment to remove: the substitution returns it as it is,
    so an opened comment that is never closed stays in the changelog. *)
Theorem sub_comments_without_comment s :
  Str.contains "<!--" s = false ∨ Str.contains "-->" s = false →
  Re.sub_comments s = s.
Proof.
  unfold Re.sub_comments. induction s as [|a s IH]; [done|].
  intros Hno.
  rewrite sub_comments_from_cons.
  - rewrite IH; [done|].
    destruct Hno as [Hno | Hno]; [left | right]; by eapply contains_tail.
  - destruct (Re.comment_at (String a s)) as [rest|] eqn:Hat; [|done].
    apply comment_at_contains in Hat as [Hopen Hclose].
    destruct Hno; congruence.
Qed.

Lemma sub_comments_without_comment_witness :
  Re.sub_comments "fixes <!-- internal note" = "fixes <!-- internal note".
Proof.
  apply (sub_comments_without_comment "fixes <!-- internal note").
  right. reflexivity.
Defined.

Lemma sub_comments_from_skip m post :
  Re.sub_comments_from (String.length m) (m +:+ post)
  = Re.sub_comments_from 0 post.
Proof.
  induction m as [|a m IH]; [by rewrite append_nil_l|].
  rewrite append_cons. exact IH.
Qed.

(** The closing [-->] cannot start inside a text that does not contain it. *)
Lemma lit_close_straddle a c post :
  String.prefix "-->" (String a c) = false →
  Str.lit "-->" (String a c +:+ "-->" +:+ post) = None.
Proof.
  intros Hp%lit_None. rewrite append_cons. cbn [Str.lit] in *.
  destruct (Ascii.eqb "-" a); [|done].
  destruct c as [|b c]; [done|]. rewrite append_cons. cbn [Str.lit] in *.
  destruct (Ascii.eqb "-" b); [|done].
  destruct c as [|d c]; [done|]. rewrite append_cons. cbn [Str.lit] in *.
  by destruct (Ascii.eqb ">" d).
Qed.

Lemma lazy_any_close c post :
  Str.contains "-->" c = false →
  Re.lazy_any (c +:+ "-->" +:+ post) (λ r, Str.lit "-->" r) = Some post.
Proof.
  induction c as [|a c IH]; intros Hno; rewrite lazy_any_unfold.
  - by rewrite append_nil_l, lit_app.
  - rewrite contains_cons in Hno. apply orb_false_iff in Hno as [Hp Hno].
    rewrite (lit_close_straddle _ _ _ Hp), append_cons. by apply IH.
Qed.

(** The opening [<!--] cannot start inside a text that does not contain it. *)
Lemma lit_open_straddle a pre rest :
  String.prefix "<!--" (String a pre) = false →
  Str.lit "<!--" (String a pre +:+ "<!--" +:+ rest) = None.
Proof.
  intros Hp%lit_None. rewrite append_cons. cbn [Str.lit] in *.
  destruct (Ascii.eqb "<" a); [|done].
  destruct pre as [|b pre]; [done|]. rewrite append_cons. cbn [Str.lit] in *.
  destruct (Ascii.eqb "!" b); [|done].
  destruct pre as [|d pre]; [done|]. rewrite append_cons. cbn [Str.lit] in *.
  destruct (Ascii.eqb "-" d); [|done].
  destruct pre as [|e pre]; [done|]. rewrite append_cons. cbn [Str.lit] in *.
  by destruct (Ascii.eqb "-" e).
Qed.

(** X12: the substitution removes the first comment of a body and goes on
    behind it: when the text before the comment does not contain [<!--]
    and the text inside it does not contain [-->], the result is the text
    before, followed by the result for what follows the comment. *)
Theorem sub_comments_first_comment pre c post :
  Str.contains "<!--" pre = false →
  Str.contains "-->" c = false →
  Re.sub_comments (pre +:+ "<!--" +:+ c +:+ "-->" +:+ post)
  = pre +:+ Re.sub_comments post.
Proof.
  unfold Re.sub_comments. intros Hpre Hc.
  induction pre as [|a pre IH].
  - rewrite !append_nil_l.
    assert (Re.comment_at (String "<" ("!--" +:+ c +:+ "-->" +:+ post))
            = Some post) as Hat.
    { unfold Re.comment_at.
      change (String "<" ("!--" +:+ c +:+ "-->" +:+ post))
        with ("<!--" +:+ c +:+ "-->" +:+ post).
      rewrite lit_app. by apply lazy_any_close. }
    change ("<!--" +:+ c +:+ "-->" +:+ post)
      with (String "<" ("!--" +:+ c +:+ "-->" +:+ post)).
    rewrite (sub_comments_from_comment _ _ _ Hat).
    rewrite <-!append_assoc.
    replace (String.length ((("!--" +:+ c) +:+ "-->") +:+ post)
             - String.length post)%nat
      with (String.length (("!--" +:+ c) +:+ "-->")).
    + apply sub_comments_from_skip.
    + rewrite (length_append (("!--" +:+ c) +:+ "-->") post). lia.
  - rewrite contains_cons in Hpre. apply orb_false_iff in Hpre as [Hp Hpre].
    rewrite append_cons, sub_comments_from_cons.
    + by rewrite IH.
    + unfold Re.comment_at. rewrite <-append_cons.
      by rewrite (lit_open_straddle _ _ _ Hp).
Qed.

Lemma sub_comments_first_comment_witness :
  Re.sub_comments ("before " +:+ "<!--" +:+ " hidden -" +:+ "-->" +:+ " after")
  = "before " +:+ Re.sub_comments " after".
Proof.
  apply (sub_comments_first_comment "before " " hidden -" " after").
  - reflexivity.
  - reflexivity.
Defined.


(** ** The shape of a cleaned changelog *)

Lemma rstrip_cons_head s d t : Str.rstrip s = String d t → ∃ s0, s = String d s0.
Proof.
  destruct s as [|a s]; [done|]. cbn [Str.rstrip].
  destruct (Str.rstrip s); [destruct (Str.is_space a)|]; intros [= <- _]; eauto.
Qed.

Lemma rstrip_idem s : Str.rstrip (Str.rstrip s) = Str.rstrip s.
Proof.
  induction s as [|a s IH]; [done|]. cbn [Str.rstrip].
  destruct (Str.rstrip s) as [|d t] eqn:Hr.
  - destruct (Str.is_space a) eqn:Ha; [done|]. cbn [Str.rstrip]. by rewrite Ha.
  - cbn [Str.rstrip] in *. by rewrite IH.
Qed.

Lemma lstrip_head s :
  Str.lstrip s = "" ∨ ∃ c t, Str.lstrip s = String c t ∧ Str.is_space c = false.
Proof.
  induction s as [|a s IH]; [by left|]. cbn [Str.lstrip].
  destruct (Str.is_space a) eqn:Ha; [done|]. right. eauto.
Qed.

Lemma rstrip_cons a s :
  Str.rstrip (String a s)
  = match Str.rstrip s with
    | "" => if Str.is_space a then "" else String a ""
    | t => String a t
    end.
Proof. done. Qed.

Lemma strip_lstrip s : Str.lstrip (Str.strip s) = Str.strip s.
Proof.
  unfold Str.strip. destruct (lstrip_head s) as [-> | (c & t & -> & Hc)]; [done|].
  rewrite rstrip_cons, Hc.
  destruct (Str.rstrip t); cbn [Str.lstrip]; by rewrite Hc.
Qed.

Lemma strip_idem s : Str.strip (Str.strip s) = Str.strip s.
Proof.
  unfold Str.strip at 1. rewrite strip_lstrip. unfold Str.strip.
  apply rstrip_idem.
Qed.

Lemma rstrip_fixed_tail a l :
  Str.rstrip (String a l) = String a l → Str.rstrip l = l.
Proof.
  cbn [Str.rstrip]. destruct (Str.rstrip l) as [|d t].
  - destruct (Str.is_space a); [done|]. by intros [= <-].
  - by intros [= <-].
Qed.

Lemma split_on_cons sep a s :
  Str.split_on sep (String a s)
  = if Ascii.eqb a sep then "" :: Str.split_on sep s
    else match Str.split_on sep s with
         | l :: ls => String a l :: ls
         | [] => [String a ""]
         end.
Proof. done. Qed.

Lemma lines_trimmed_tail a s : lines_trimmed (String a s) → lines_trimmed s.
Proof.
  unfold lines_trimmed. rewrite split_on_cons.
  destruct (split_on_nonempty Str.LF s) as (l & ls & ->).
  destruct (Ascii.eqb a Str.LF).
  - by inversion 1.
  - inversion 1 as [|? ? Hl Hls]; subst. constructor; [|done].
    by eapply rstrip_fixed_tail.
Qed.

Lemma lines_trimmed_lstrip s : lines_trimmed s → lines_trimmed (Str.lstrip s).
Proof.
  induction s as [|a s IH]; [done|]. cbn [Str.lstrip].
  destruct (Str.is_space a); [|done].
  intros Hs. eapply IH, lines_trimmed_tail, Hs.
Qed.

Lemma lines_trimmed_rstrip s : lines_trimmed s → lines_trimmed (Str.rstrip s).
Proof.
  induction s as [|a s IH]; [done|]. intros Hs.
  pose proof (IH (lines_trimmed_tail _ _ Hs)) as IHs. clear IH.
  cbn [Str.rstrip]. destruct (Str.rstrip s) as [|d t] eqn:Hr.
  - destruct (Str.is_space a) eqn:Ha; [by repeat constructor|].
    unfold lines_trimmed. rewrite split_on_cons.
    destruct (Ascii.eqb a Str.LF) eqn:E.
    { apply Ascii.eqb_eq in E as ->. by vm_compute in Ha. }
    repeat constructor. cbn [Str.rstrip]. by rewrite Ha.
  - unfold lines_trimmed in *. rewrite split_on_cons.
    destruct (Ascii.eqb a Str.LF) eqn:E; [by constructor|].
    destruct (Str.split_on Str.LF (String d t)) as [|l' ls'] eqn:Hsp.
    { destruct (split_on_nonempty Str.LF (String d t)) as (? & ? & Hne).
      congruence. }
    inversion IHs as [|? ? Hl' Hls']; subst. constructor; [|done].
    destruct l' as [|e l'].
    + rewrite split_on_cons in Hsp.
      destruct (Ascii.eqb d Str.LF) eqn:Ed.
      2:{ by destruct (Str.split_on Str.LF t). }
      apply Ascii.eqb_eq in Ed as ->.
      apply rstrip_cons_head in Hr as [s0 ->].
      rewrite split_on_cons, E, split_on_cons in Hs.
      rewrite Ascii.eqb_refl in Hs. by inversion Hs.
    + cbn [Str.rstrip] in *. by rewrite Hl'.
Qed.

Lemma all_chars_rstrip p s :
  all_chars p s = true → all_chars p (Str.rstrip s) = true.
Proof.
  induction s as [|a s IH]; [done|]. simpl.
  intros [Ha Hs]%andb_true_iff. specialize (IH Hs).
  destruct (Str.rstrip s); [destruct (Str.is_space a)|]; simpl in *;
    by rewrite ?Ha, ?IH.
Qed.

Lemma all_chars_lstrip p s :
  all_chars p s = true → all_chars p (Str.lstrip s) = true.
Proof.
  induction s as [|a s IH]; [done|]. cbn [Str.lstrip].
  destruct (Str.is_space a); [|done].
  simpl. by intros [_ Hs]%andb_true_iff; apply IH.
Qed.

Lemma all_chars_app p a b :
  all_chars p (a +:+ b) = all_chars p a && all_chars p b.
Proof.
  induction a as [|c a IH]; [done|].
  rewrite append_cons. simpl. by rewrite IH, andb_assoc.
Qed.

Lemma all_chars_weaken (p q : ascii → bool) s :
  (∀ c, p c = true → q c = true) →
  all_chars p s = true → all_chars q s = true.
Proof.
  intros Hpq. induction s as [|a s IH]; [done|]. simpl.
  intros [Ha Hs]%andb_true_iff. by rewrite (Hpq _ Ha), IH.
Qed.

(** The pieces [splitlines] cuts hold no line boundary. *)
Lemma splitlines_inline s :
  Forall (λ l, all_chars inline l = true) (Str.splitlines s)
  ∧ ∀ c, Forall (λ l, all_chars inline l = true) (Str.splitlines (String c s)).
Proof.
  induction s as [|c2 s [IH1 IH2]].
  - split; [constructor|]. intros c. cbn [Str.splitlines].
    destruct (Str.is_linebreak c) eqn:Hc; repeat constructor.
    simpl. unfold inline. by rewrite Hc.
  - split; [apply IH2|]. intros c.
    change (Str.splitlines (String c (String c2 s)))
      with (if Str.is_linebreak c then
              "" :: (if Ascii.eqb c Str.CR && Ascii.eqb c2 Str.LF
                     then Str.splitlines s
                     else Str.splitlines (String c2 s))
            else match Str.splitlines (String c2 s) with
                 | l :: ls => String c l :: ls
                 | [] => [String c ""]
                 end).
    destruct (Str.is_linebreak c) eqn:Hc.
    + constructor; [done|].
      destruct (Ascii.eqb c Str.CR && Ascii.eqb c2 Str.LF); [done|apply IH2].
    + specialize (IH2 c2).
      destruct (Str.splitlines (String c2 s)) as [|l ls].
      * repeat constructor. simpl. unfold inline. by rewrite Hc.
      * inversion IH2 as [|? ? Hl Hls]; subst. constructor; [|done].
        simpl. unfold inline at 1. by rewrite Hc.
Qed.

Lemma split_on_inline l :
  all_chars inline l = true → Str.split_on Str.LF l = [l].
Proof.
  induction l as [|a l IH]; [done|]. simpl all_chars.
  intros [Ha Hl]%andb_true_iff. rewrite split_on_cons, (IH Hl).
  destruct (Ascii.eqb a Str.LF) eqn:E; [|done].
  apply Ascii.eqb_eq in E as ->. by vm_compute in Ha.
Qed.

Lemma join_cons sep x y l :
  Str.join sep (x :: y :: l) = x +:+ sep +:+ Str.join sep (y :: l).
Proof. done. Qed.

Lemma split_on_join ls :
  ls ≠ [] →
  Forall (λ l, all_chars inline l = true) ls →
  Str.split_on Str.LF (Str.join Str.nl ls) = ls.
Proof.
  induction ls as [|x ls IH]; [done|]. intros _ Hall.
  inversion Hall as [|? ? Hx Hls]; subst.
  destruct ls as [|y ls]; [by apply split_on_inline|].
  rewrite join_cons, split_on_lines, (split_on_inline _ Hx), IH by done.
  done.
Qed.

Lemma all_chars_join p ls :
  p Str.LF = true →
  Forall (λ l, all_chars p l = true) ls →
  all_chars p (Str.join Str.nl ls) = true.
Proof.
  intros Hnl. induction ls as [|x ls IH]; [done|]. intros Hall.
  inversion Hall as [|? ? Hx Hls]; subst.
  destruct ls as [|y ls]; [done|].
  rewrite join_cons, !all_chars_app, Hx, (IH Hls). simpl. by rewrite Hnl.
Qed.

(** The lines the cleanup joins: trimmed, and free of line boundaries. *)
Lemma changelog_lines body :
  Forall (λ l, Str.rstrip l = l ∧ all_chars inline l = true)
    (map Str.rstrip (Str.splitlines body)).
Proof.
  apply Forall_map. eapply Forall_impl; [apply (splitlines_inline body)|].
  intros l Hl. simpl. split; [apply rstrip_idem | by apply all_chars_rstrip].
Qed.

Lemma process_changelog_Some body t :
  process_changelog body = Some t →
  ∃ b, t = Str.strip (Str.join Str.nl (map Str.rstrip (Str.splitlines b)))
       ∧ t ≠ "".
Proof.
  unfold process_changelog. destruct body as [[|a b]|]; [done| |done].
  set (cleaned := Str.strip _).
  destruct (Str.is_empty cleaned) eqn:He; [done|]. intros [= <-].
  exists (Re.sub_comments (String a b)). split; [done|].
  by destruct cleaned.
Qed.

(** X13: a changelog the cleanup returns is not empty, neither starts nor
    ends with white space, and has no line that ends in white space. *)
Theorem process_changelog_trimmed body t :
  process_changelog body = Some t →
  t ≠ "" ∧ Str.strip t = t ∧ lines_trimmed t.
Proof.
  intros (b & -> & Hne)%process_changelog_Some.
  split_and!; [done|apply strip_idem|].
  apply lines_trimmed_rstrip, lines_trimmed_lstrip.
  pose proof (changelog_lines b) as Hlines.
  destruct (map Str.rstrip (Str.splitlines b)) as [|x ls] eqn:Hmap.
  { by repeat constructor. }
  unfold lines_trimmed. rewrite split_on_join; [|done|].
  - eapply Forall_impl; [exact Hlines|]. by intros ? [? _].
  - eapply Forall_impl; [exact Hlines|]. by intros ? [_ ?].
Qed.

Lemma process_changelog_trimmed_witness :
  "before" +:+ Str.nl +:+ Str.nl +:+ "after" ≠ ""
  ∧ Str.strip ("before" +:+ Str.nl +:+ Str.nl +:+ "after")
    = "before" +:+ Str.nl +:+ Str.nl +:+ "after"
  ∧ lines_trimmed ("before" +:+ Str.nl +:+ Str.nl +:+ "after").
Proof.
  apply (process_changelog_trimmed (Some changelog_example)).
  reflexivity.
Defined.

(** X14: in a changelog the cleanup returns, the line feed is the only
    line boundary left: carriage returns and the other boundaries of
    [splitlines] have become line feeds or are gone. *)
Theorem process_changelog_line_feeds_only body t :
  process_changelog body = Some t →
  all_chars lf_or_inline t = true.
Proof.
  intros (b & -> & _)%process_changelog_Some.
  apply all_chars_rstrip, all_chars_lstrip, all_chars_join; [done|].
  eapply Forall_impl; [apply (changelog_lines b)|].
  intros l [_ Hl]. simpl. eapply all_chars_weaken; [|exact Hl].
  intros c Hc. unfold lf_or_inline. rewrite Hc. apply orb_true_r.
Qed.

Lemma process_changelog_line_feeds_only_witness :
  all_chars lf_or_inline ("first" +:+ Str.nl +:+ "second") = true.
Proof.
  apply (process_changelog_line_feeds_only
           (Some (String Str.CR (String Str.LF
              ("first  " +:+ String Str.CR (String Str.LF "second")))))).
  reflexivity.
Defined.


(** ** The resolver, whatever the reply *)

(** X15: the checksum resolver changes no file and logs exactly one
    request, for the manifest URL of the tag. It returns [None] exactly
    when that request fails, and it raises exactly when the manifest it
    fetched has a line of three or more tokens; what it raises then is
    [ValueError], never [RequestException]. *)
Theorem get_version_checksums_outcomes env tag w :
  fs (get_version_checksums env tag w).2 = fs w
  ∧ requested (get_version_checksums env tag w).2
    = requested w ++ [checksums_url tag]
  ∧ ((get_version_checksums env tag w).1 = Ok None
     ↔ text_reply env (checksums_url tag) = None)
  ∧ ∀ e, (get_version_checksums env tag w).1 = Raise e
         ↔ e = ValueError
           ∧ ∃ text line,
               text_reply env (checksums_url tag) = Some text
               ∧ line ∈ Str.split_on Str.LF text
               ∧ (3 ≤ length (Str.split line))%nat.
Proof.
  rewrite get_version_checksums_eq. cbn [fst snd logged fs requested].
  split_and!; [done|done| |].
  - destruct (text_reply env (checksums_url tag)) as [text|]; [|done].
    by destruct (parse_checksums text tag).
  - intros e. unfold parse_checksums.
    destruct (text_reply env (checksums_url tag)) as [text|].
    + destruct (parse_lines ∅ (Str.split_on Str.LF text)) as [c|e'] eqn:Hp.
      * split; [done|]. intros (-> & text' & line & [= <-] & Hin & Hlen).
        assert (parse_lines ∅ (Str.split_on Str.LF text) = Raise ValueError)
          as Hr by (apply parse_lines_Raise; eauto).
        congruence.
      * apply parse_lines_Raise in Hp as (-> & line & Hin & Hlen).
        split; [intros [= <-]; eauto 10 | by intros (-> & _)].
    + split; [done|]. by intros (_ & text & line & [=] & _).
Qed.

(** ** A run, from its exit status *)

Lemma plan_Some json_load env files vs :
  plan json_load env files = Some vs →
  ∃ rs, releases_reply env = Some rs
        ∧ merge env (current json_load files) ∅ rs = Ok vs
        ∧ files !! "versions" = None.
Proof.
  unfold plan. destruct (Py.len _); [|done].
  destruct (releases_reply env) as [rs|]; [|done].
  destruct (merge env _ ∅ rs) as [vs'|] eqn:Hm; [|done].
  destruct (files !! "versions"); [done|].
  intros [= <-]. by exists rs.
Qed.

Lemma main_Ok json_load env w w' :
  main json_load env w = (0, w') →
  ∃ vs, plan json_load env (fs w) = Some vs
        ∧ fs w' = persist (fs w) (backup_name env) (Json.dumps (JObj vs)).
Proof.
  intros Hmain. destruct (main_plan json_load env w) as [Hfs Hexit].
  rewrite Hmain in Hfs, Hexit. simpl in Hfs, Hexit.
  destruct (plan json_load env (fs w)) as [vs|]; [eauto|done].
Qed.


(** X17: a successful run that finds no versions file writes the versions
    file and touches nothing else: no backup appears. *)
Theorem first_run_creates_no_backup json_load env w w' :
  fs w !! target = None →
  main json_load env w = (0, w') →
  ∃ text, fs w' = <[target := text]> (fs w).
Proof.
  intros Hnone (vs & _ & ->)%main_Ok. unfold persist. rewrite Hnone. eauto.
Qed.

Lemma first_run_creates_no_backup_witness :
  ∃ text,
    fs (main JsonLoad.loads (upstream [release_123] (Some manifest_example))
          empty_world).2
    = <[target := text]> (fs empty_world).
Proof.
  apply (first_run_creates_no_backup JsonLoad.loads
           (upstream [release_123] (Some manifest_example)) empty_world).
  - reflexivity.
  - vm_compute. reflexivity.
Defined.

(** X18: when the versions file holds a JSON document without a length
    (null, a boolean or a number), the run ends with exit status 1 before
    any request is made, and leaves the world as it found it. *)
Theorem scalar_document_stops_run json_load env w text v :
  fs w !! target = Some text →
  json_load text = Some v →
  Py.len v = Raise TypeError →
  main json_load env w = (1, w).
Proof.
  intros Hfile Hload Hlen. rewrite main_eq. unfold current.
  by rewrite Hfile, Hload, Hlen.
Qed.

Lemma scalar_document_stops_run_witness :
  main JsonLoad.loads (upstream [release_123] (Some manifest_example))
    (world_with_text (Json.dumps (JInt 42)))
  = (1, world_with_text (Json.dumps (JInt 42))).
Proof.
  apply (scalar_document_stops_run JsonLoad.loads _ _
           (Json.dumps (JInt 42)) (JInt 42)).
  - reflexivity.
  - apply loads_dumps.
  - reflexivity.
Defined.

Lemma merge_Raise env cur rs vs r e :
  r ∈ rs → outcome env cur r = Raise e → ∃ e', merge env cur vs rs = Raise e'.
Proof.
  intros Hin Hout. destruct (merge env cur vs rs) as [vs'|e'] eqn:Hm; [|eauto].
  destruct (merge_ok_all _ _ _ _ _ Hm r Hin) as [o Ho]. congruence.
Qed.

(** X19: when the stored document has, under the key of a listed release
    that is no draft, a record from which [metadata] or its [releaseDate]
    cannot be read, the run ends with exit status 1 and changes no file. *)
Theorem undated_record_stops_run json_load env w text m rs r stored e :
  fs w !! target = Some text →
  json_load text = Some (JObj m) →
  releases_reply env = Some rs →
  r ∈ rs →
  r_draft r = false →
  m !! version_of r = Some stored →
  release_date stored = Raise e →
  (main json_load env w).1 = 1 ∧ fs (main json_load env w).2 = fs w.
Proof.
  intros Hfile Hload Hreply Hin Hdraft Hm Hdate.
  assert (plan json_load env (fs w) = None) as Hplan.
  { unfold plan, current. rewrite Hfile, Hload, Hreply.
    destruct (Py.len (JObj m)); [|done].
    destruct (merge_Raise env (JObj m) rs ∅ r e Hin) as [e' ->]; [|done].
    unfold outcome. rewrite Hdraft, up_to_date_obj, Hm.
    unfold release_date in Hdate.
    destruct (Py.getitem stored "metadata") as [md|]; [|by injection Hdate as ->].
    simpl in *. by rewrite Hdate. }
  destruct (main_plan json_load env w) as [-> ->]. by rewrite Hplan.
Qed.

Lemma undated_record_stops_run_witness :
  (main JsonLoad.loads (upstream [release_123] (Some manifest_example))
     (world_with_text (Json.dumps (JObj {[ "1.2.3" := JObj ∅ ]})))).1 = 1
  ∧ fs (main JsonLoad.loads (upstream [release_123] (Some manifest_example))
          (world_with_text (Json.dumps (JObj {[ "1.2.3" := JObj ∅ ]})))).2
    = fs (world_with_text (Json.dumps (JObj {[ "1.2.3" := JObj ∅ ]}))).
Proof.
  apply (undated_record_stops_run JsonLoad.loads
           (upstream [release_123] (Some manifest_example))
           (world_with_text (Json.dumps (JObj {[ "1.2.3" := JObj ∅ ]})))
           (Json.dumps (JObj {[ "1.2.3" := JObj ∅ ]}))
           {[ "1.2.3" := JObj ∅ ]} [release_123] release_123 (JObj ∅) KeyError).
  - reflexivity.
  - apply loads_dumps.
  - reflexivity.
  - apply list_elem_of_here.
  - reflexivity.
  - reflexivity.
  - reflexivity.
Defined.


(** ** Where the records of the output come from *)

Lemma up_to_date_Some_obj cur version date stored :
  up_to_date cur version date = Ok (Some stored) →
  ∃ m, cur = JObj m ∧ m !! version = Some stored
       ∧ release_date stored = Ok (JStr date).
Proof.
  destruct cur as [| | | s | l | m]; try done.
  - unfold up_to_date. simpl. by destruct (Str.contains version s).
  - unfold up_to_date. simpl.
    by destruct (existsb (λ x, Py.eq_str x version) l).
  - rewrite up_to_date_obj.
    destruct (m !! version) as [rec|] eqn:Hm; [|done].
    destruct (Py.getitem rec "metadata") as [md|] eqn:Hmd; [|done]. simpl.
    destruct (Py.getitem md "releaseDate") as [d|] eqn:Hd; [|done]. simpl.
    destruct (Py.eq_str d date) eqn:Heq; [|done].
    intros [= <-]. exists m. split_and!; [done|done|].
    unfold release_date. rewrite Hmd. simpl. rewrite Hd.
    destruct d; try done. simpl in Heq. by apply String.eqb_eq in Heq as ->.
Qed.

Lemma outcome_Some_cases env cur r v :
  outcome env cur r = Ok (Some v) →
  r_draft r = false
  ∧ ((∃ m, cur = JObj m ∧ m !! version_of r = Some v
           ∧ release_date v = Ok (JStr (r_published_at r)))
     ∨ (∃ text c,
          text_reply env (checksums_url (r_tag_name r)) = Some text
          ∧ parse_checksums text (r_tag_name r) = Ok c
          ∧ c ≠ ∅ ∧ v = fresh_record r c)).
Proof.
  unfold outcome. destruct (r_draft r); [done|].
  destruct (up_to_date cur (version_of r) (r_published_at r))
    as [[stored|]|e] eqn:Hup; [| |done].
  - intros [= <-]. split; [done|]. left. by apply up_to_date_Some_obj.
  - unfold resolve.
    destruct (text_reply env (checksums_url (r_tag_name r))) as [text|];
      [|done].
    destruct (parse_checksums text (r_tag_name r)) as [c|] eqn:Hp; [|done].
    destruct (bool_decide (c = ∅)) eqn:Hc; [done|].
    apply bool_decide_eq_false in Hc.
    intros [= <-]. split; [done|]. right. by exists text, c.
Qed.

Lemma last_write_Some env cur k rs v :
  last_write env cur k rs = Some v →
  ∃ r, r ∈ rs ∧ version_of r = k ∧ outcome env cur r = Ok (Some v).
Proof.
  induction rs as [|r rs IH]; simpl; [done|].
  destruct (last_write env cur k rs) as [v'|].
  - intros [= <-]. destruct IH as (r' & Hin & Hk & Hout); [done|].
    exists r'. split; [by apply list_elem_of_further|done].
  - destruct (decide (version_of r = k)) as [Hk|]; [|done].
    destruct (outcome env cur r) as [[v'|]|] eqn:Hout; try done.
    intros [= <-]. exists r. split; [apply list_elem_of_here|done].
Qed.

(** X20: after a successful run, every record of the mapping written to
    the versions file stands under the key of a listed release that is no
    draft, and is either the record the stored document had under that
    key, with the release's publication date as its release date, or a
    fresh record built from that release and a non-empty manifest fetched
    for its tag. *)
Theorem written_records_origin json_load env w w' :
  main json_load env w = (0, w') →
  ∃ rs vs,
    releases_reply env = Some rs
    ∧ fs w' !! target = Some (Json.dumps (JObj vs))
    ∧ ∀ k v, vs !! k = Some v →
        ∃ r, r ∈ rs ∧ r_draft r = false ∧ version_of r = k
             ∧ ((∃ m, current json_load (fs w) = JObj m
                      ∧ m !! k = Some v
                      ∧ release_date v = Ok (JStr (r_published_at r)))
                ∨ (∃ text c,
                     text_reply env (checksums_url (r_tag_name r)) = Some text
                     ∧ parse_checksums text (r_tag_name r) = Ok c
                     ∧ c ≠ ∅ ∧ v = fresh_record r c)).
Proof.
  intros (vs & Hplan & ->)%main_Ok.
  apply plan_Some in Hplan as (rs & Hreply & Hmerge & _).
  exists rs, vs. split_and!; [done|apply persist_target|].
  intros k v Hv. rewrite (merge_lookup _ _ _ _ _ k Hmerge) in Hv.
  destruct (last_write env (current json_load (fs w)) k rs) as [v'|] eqn:Hlast.
  2:{ by rewrite lookup_empty in Hv. }
  injection Hv as ->.
  apply last_write_Some in Hlast as (r & Hin & <- & Hout).
  apply outcome_Some_cases in Hout as [Hdraft Hcases].
  by exists r.
Qed.

Lemma written_records_origin_witness :
  ∃ rs vs,
    releases_reply (upstream [release_123] (Some manifest_example)) = Some rs
    ∧ fs (main JsonLoad.loads (upstream [release_123] (Some manifest_example))
            empty_world).2 !! target
      = Some (Json.dumps (JObj vs))
    ∧ ∀ k v, vs !! k = Some v →
        ∃ r, r ∈ rs ∧ r_draft r = false ∧ version_of r = k
             ∧ ((∃ m, current JsonLoad.loads (fs empty_world) = JObj m
                      ∧ m !! k = Some v
                      ∧ release_date v = Ok (JStr (r_published_at r)))
                ∨ (∃ text c,
                     text_reply (upstream [release_123] (Some manifest_example))
                       (checksums_url (r_tag_name r)) = Some text
                     ∧ parse_checksums text (r_tag_name r) = Ok c
                     ∧ c ≠ ∅ ∧ v = fresh_record r c)).
Proof.
  apply (written_records_origin JsonLoad.loads
           (upstream [release_123] (Some manifest_example)) empty_world).
  vm_compute. reflexivity.
Defined.

(** ** Counters and requests *)

Lemma size_insert_le (m : gmap string json) k v :
  (size (<[k := v]> m) ≤ S (size m))%nat.
Proof. rewrite map_size_insert. destruct (m !! k); simpl; lia. Qed.

(** X21: a loop that completes has counted every release exactly once, as
    processed or as skipped; neither counter ever goes down, and the
    mapping has grown by no more entries than releases were processed. *)
Theorem every_release_is_counted env cur rs st w st' w' :
  process_releases env cur st rs w = (Ok st', w') →
  processed_count st' + skipped_count st'
  = processed_count st + skipped_count st + Z.of_nat (length rs)
  ∧ processed_count st ≤ processed_count st'
  ∧ skipped_count st ≤ skipped_count st'
  ∧ Z.of_nat (size (versions st'))
    ≤ Z.of_nat (size (versions st)) + (processed_count st' - processed_count st).
Proof.
  revert st w. induction rs as [|r rs IH]; intros st w.
  { rewrite process_releases_nil. intros [= <- <-]. simpl. lia. }
  intros (o & w1 & _ & Hrest)%process_releases_ok_cons.
  apply IH in Hrest as (Hsum & Hp & Hs & Hsize).
  destruct o as [v|]; simpl in *.
  - pose proof (size_insert_le (versions st) (version_of r) v). lia.
  - lia.
Qed.

Lemma every_release_is_counted_witness :
  processed_count (store (count_skipped start) "1.2.3" stored_123)
  + skipped_count (store (count_skipped start) "1.2.3" stored_123)
  = processed_count start + skipped_count start
    + Z.of_nat (length [draft_123; release_123])
  ∧ processed_count start
    ≤ processed_count (store (count_skipped start) "1.2.3" stored_123)
  ∧ skipped_count start
    ≤ skipped_count (store (count_skipped start) "1.2.3" stored_123)
  ∧ Z.of_nat (size (versions (store (count_skipped start) "1.2.3" stored_123)))
    ≤ Z.of_nat (size (versions start))
      + (processed_count (store (count_skipped start) "1.2.3" stored_123)
         - processed_count start).
Proof.
  apply (every_release_is_counted
           (upstream [draft_123; release_123] (Some manifest_example))
           (JObj ∅) [draft_123; release_123] start empty_world
           (store (count_skipped start) "1.2.3" stored_123)
           (logged (checksums_url "v1.2.3") empty_world)).
  vm_compute. reflexivity.
Defined.

(** X22: a successful run has requested the release list once and then,
    in the order of the list, the manifest of each release that is no
    draft and has no stored record with its publication date, and nothing
    else. *)
Theorem successful_run_requests json_load env w w' rs :
  releases_reply env = Some rs →
  main json_load env w = (0, w') →
  requested w'
  = requested w
    ++ api_url
    :: map (λ r, checksums_url (r_tag_name r))
         (filter (λ r, resolved (current json_load (fs w)) r) rs).
Proof.
  intros Hreply. rewrite main_eq, Hreply.
  destruct (Py.len _); [|done].
  destruct (process_releases env _ start rs (logged api_url w))
    as [[st|e] w1] eqn:Hloop; [|done].
  destruct (fs w !! "versions"); [done|].
  intros [= <-]. simpl.
  rewrite (process_releases_requested _ _ _ _ _ _ _ Hloop). simpl.
  by rewrite <-app_assoc.
Qed.

Lemma successful_run_requests_witness :
  requested
    (main JsonLoad.loads
       (upstream [draft_123; release_123] (Some manifest_example))
       empty_world).2
  = requested empty_world
    ++ api_url
    :: map (λ r, checksums_url (r_tag_name r))
         (filter (λ r, resolved (current JsonLoad.loads (fs empty_world)) r)
            [draft_123; release_123]).
Proof.
  apply (successful_run_requests JsonLoad.loads
           (upstream [draft_123; release_123] (Some manifest_example))
           empty_world _ [draft_123; release_123]).
  - reflexivity.
  - vm_compute. reflexivity.
Defined.

Lemma resolved_empty r : resolved (JObj ∅) r ↔ r_draft r = false.
Proof.
  unfold resolved. rewrite up_to_date_obj, lookup_empty.
  destruct (r_draft r); simpl; split; done.
Qed.

(** X23: when the versions file is absent, or is there and cannot be read
    as JSON, a successful run requests the manifest of every listed
    release that is no draft. *)
Theorem run_without_baseline_requests json_load env w w' rs :
  fs w !! target = None
  ∨ (∃ text, fs w !! target = Some text ∧ json_load text = None) →
  releases_reply env = Some rs →
  main json_load env w = (0, w') →
  requested w'
  = requested w
    ++ api_url
    :: map (λ r, checksums_url (r_tag_name r))
         (filter (λ r, r_draft r = false) rs).
Proof.
  intros Hbase Hreply. rewrite main_eq, Hreply.
  assert (current json_load (fs w) = JObj ∅) as ->.
  { unfold current. destruct Hbase as [-> | (text & -> & ->)]; done. }
  destruct (Py.len _); [|done].
  destruct (process_releases env _ start rs (logged api_url w))
    as [[st|e] w1] eqn:Hloop; [|done].
  destruct (fs w !! "versions"); [done|].
  intros [= <-]. simpl.
  rewrite (process_releases_requested _ _ _ _ _ _ _ Hloop). simpl.
  rewrite <-app_assoc. simpl. do 3 f_equal.
  apply list_filter_iff. intros r. apply resolved_empty.
Qed.

Lemma run_without_baseline_requests_witness :
  requested
    (main no_json (upstream [draft_123; release_123] (Some manifest_example))
       world_with_file).2
  = requested world_with_file
    ++ api_url
    :: map (λ r, checksums_url (r_tag_name r))
         (filter (λ r, r_draft r = false) [draft_123; release_123]).
Proof.
  apply (run_without_baseline_requests no_json
           (upstream [draft_123; release_123] (Some manifest_example))
           world_with_file _ [draft_123; release_123]).
  - right. exists "old". split; reflexivity.
  - reflexivity.
  - vm_compute. reflexivity.
Defined.


(** ** The baseline of a run *)

(** X24: a versions file that cannot be read as JSON counts as no file:
    the run ends with the same exit status as on the same world without
    the file, and when it succeeds it writes the same text. *)
Theorem unreadable_file_counts_as_absent json_load env w text :
  fs w !! target = Some text →
  json_load text = None →
  (main json_load env w).1 = (main json_load env (without_target w)).1
  ∧ fs (main json_load env w).2 !! target
    = match (main json_load env w).1 with
      | 0 => fs (main json_load env (without_target w)).2 !! target
      | _ => Some text
      end.
Proof.
  intros Hfile Hload.
  assert (plan json_load env (fs (without_target w))
          = plan json_load env (fs w)) as Hplan.
  { unfold plan, current. simpl. rewrite lookup_delete_eq, Hfile, Hload.
    by rewrite lookup_delete_ne. }
  destruct (main_plan json_load env w) as [-> ->].
  destruct (main_plan json_load env (without_target w)) as [-> ->].
  rewrite Hplan. destruct (plan json_load env (fs w)) as [vs|].
  - by rewrite !persist_target.
  - done.
Qed.

Lemma unreadable_file_counts_as_absent_witness :
  (main no_json (upstream [release_123] (Some manifest_example))
     world_with_file).1
  = (main no_json (upstream [release_123] (Some manifest_example))
       (without_target world_with_file)).1
  ∧ fs (main no_json (upstream [release_123] (Some manifest_example))
          world_with_file).2 !! target
    = match (main no_json (upstream [release_123] (Some manifest_example))
               world_with_file).1 with
      | 0 => fs (main no_json (upstream [release_123] (Some manifest_example))
                   (without_target world_with_file)).2 !! target
      | _ => Some "old"
      end.
Proof.
  apply (unreadable_file_counts_as_absent no_json
           (upstream [release_123] (Some manifest_example))
           world_with_file "old").
  - reflexivity.
  - reflexivity.
Defined.

(** X25: when a regular file stands where the directory [versions] should
    be, the run ends with exit status 1 and changes no file. *)
Theorem file_in_place_of_directory_stops_run json_load env w content :
  fs w !! "versions" = Some content →
  (main json_load env w).1 = 1 ∧ fs (main json_load env w).2 = fs w.
Proof.
  intros Hfile.
  assert (plan json_load env (fs w) = None) as Hplan.
  { unfold plan. destruct (Py.len _); [|done].
    destruct (releases_reply env) as [rs|]; [|done].
    destruct (merge env _ ∅ rs); [|done]. by rewrite Hfile. }
  destruct (main_plan json_load env w) as [-> ->]. by rewrite Hplan.
Qed.

Lemma file_in_place_of_directory_stops_run_witness :
  (main no_json (upstream [release_123] (Some manifest_example))
     {| fs := {[ "versions" := "notes" ]}; requested := [] |}).1 = 1
  ∧ fs (main no_json (upstream [release_123] (Some manifest_example))
          {| fs := {[ "versions" := "notes" ]}; requested := [] |}).2
    = fs {| fs := {[ "versions" := "notes" ]}; requested := [] |}.
Proof.
  apply (file_in_place_of_directory_stops_run no_json
           (upstream [release_123] (Some manifest_example))
           {| fs := {[ "versions" := "notes" ]}; requested := [] |} "notes").
  reflexivity.
Defined.

(** ** The text of the versions file *)

(** X26: the printer writes different documents as different texts: two
    documents have the same text exactly when they are equal. *)
Theorem dumps_injective v1 v2 : Json.dumps v1 = Json.dumps v2 ↔ v1 = v2.
Proof.
  split; [|by intros ->].
  intros Heq. apply (f_equal JsonLoad.loads) in Heq.
  rewrite !loads_dumps in Heq. by injection Heq.
Qed.


Lemma escape_char_plain c : all_chars plain (Json.escape_char c) = true.
Proof. destruct c as [[] [] [] [] [] [] [] []]; vm_compute; reflexivity. Qed.

Lemma escape_plain s : all_chars plain (Json.escape s) = true.
Proof.
  induction s as [|c s IH]; [done|]. cbn [Json.escape].
  by rewrite all_chars_app, escape_char_plain, IH.
Qed.

Lemma quote_plain s : all_chars plain (Json.quote s) = true.
Proof.
  unfold Json.quote. cbn [all_chars].
  by rewrite all_chars_app, escape_plain.
Qed.

Lemma uint_plain d : all_chars plain (NilEmpty.string_of_uint d) = true.
Proof. induction d; [done|..]; cbn [NilEmpty.string_of_uint all_chars];
  by rewrite IHd. Qed.

Lemma str_of_int_plain z : all_chars plain (Py.str_of_int z) = true.
Proof.
  unfold Py.str_of_int. destruct (Z.to_int z) as [d|d];
    cbn [NilEmpty.string_of_int all_chars]; by rewrite uint_plain.
Qed.

Lemma replicate_plain n : all_chars plain (Str.replicate n " ") = true.
Proof. induction n as [|n IH]; [done|]. cbn [Str.replicate all_chars].
  by rewrite IH. Qed.

Lemma newline_indent_plain l : all_chars plain (Json.newline_indent l) = true.
Proof.
  unfold Json.newline_indent. by rewrite all_chars_app, replicate_plain.
Qed.

Lemma join_plain sep items :
  all_chars plain sep = true →
  Forall (λ x, all_chars plain x = true) items →
  all_chars plain (Str.join sep items) = true.
Proof.
  intros Hsep. induction items as [|x items IH]; [done|].
  inversion 1 as [|? ? Hx Hitems]; subst.
  destruct items as [|y items]; [done|].
  by rewrite join_cons, !all_chars_app, Hx, Hsep, IH.
Qed.

Lemma render_seq_plain l opening closing items :
  all_chars plain opening = true →
  all_chars plain closing = true →
  Forall (λ x, all_chars plain x = true) items →
  all_chars plain (Json.render_seq l opening closing items) = true.
Proof.
  intros Ho Hc Hitems. unfold Json.render_seq.
  destruct items as [|x items]; [by rewrite all_chars_app, Ho, Hc|].
  rewrite !all_chars_app, Ho, Hc, !newline_indent_plain, join_plain; [done| |done].
  cbn [all_chars]. by rewrite newline_indent_plain.
Qed.

Lemma render_item_plain k t :
  all_chars plain t = true → all_chars plain (Json.render_item (k, t)) = true.
Proof.
  intros Ht. unfold Json.render_item. cbn [fst snd].
  by rewrite !all_chars_app, quote_plain, Ht.
Qed.

(** The printer writes printable ASCII and line feeds only. *)
Lemma dumps_at_plain l v : all_chars plain (Json.dumps_at l v) = true.
Proof.
  remember (json_size v) as n eqn:Hn. revert v l Hn.
  induction n as [n IH] using lt_wf_ind. intros v l ->.
  destruct v as [|[]|z|t|vs|m]; cbn [Json.dumps_at].
  - done.
  - done.
  - done.
  - apply str_of_int_plain.
  - apply quote_plain.
  - apply render_seq_plain; [done|done|].
    apply Forall_map, Forall_forall. intros x Hx. simpl.
    eapply IH; [|reflexivity]. by apply json_size_arr.
  - destruct (sorted_items_fmap (Json.dumps_at (S l)) m)
      as (kvs & Hperm & ->).
    apply render_seq_plain; [done|done|].
    apply Forall_map, Forall_map, Forall_forall. intros [k v] Hin. simpl.
    apply render_item_plain. eapply IH; [|reflexivity].
    apply (json_size_obj m k). apply elem_of_map_to_list. by rewrite <-Hperm.
Qed.

(** X27: the versions file a successful run writes is plain ASCII:
    printable characters and line feeds only, whatever characters the
    changelogs, names and checksums hold. *)
Theorem versions_file_is_plain_ascii json_load env w w' :
  main json_load env w = (0, w') →
  ∃ text, fs w' !! target = Some text ∧ all_chars plain text = true.
Proof.
  intros (vs & _ & ->)%main_Ok.
  exists (Json.dumps (JObj vs)). split; [apply persist_target|].
  apply dumps_at_plain.
Qed.

Lemma versions_file_is_plain_ascii_witness :
  ∃ text,
    fs (main JsonLoad.loads (upstream [release_123] (Some manifest_example))
          empty_world).2 !! target = Some text
    ∧ all_chars plain text = true.
Proof.
  apply (versions_file_is_plain_ascii JsonLoad.loads
           (upstream [release_123] (Some manifest_example)) empty_world).
  vm_compute. reflexivity.
Defined.


(** ** White space in a manifest *)

Lemma split_trailing_space c s :
  Str.is_space c = true → Str.split (s +:+ String c "") = Str.split s.
Proof.
  intros Hc. induction s as [|a s IH].
  { rewrite append_nil_l. simpl. by rewrite Hc. }
  rewrite append_cons. cbn [Str.split].
  destruct (Str.is_space a); [exact IH|].
  destruct s as [|c' s].
  - rewrite append_nil_l. rewrite Hc. simpl. by rewrite Hc.
  - rewrite append_cons in *. destruct (Str.is_space c'); by rewrite IH.
Qed.

(** The parser sees a line through its tokens only. *)
Lemma parse_line_tokens acc line :
  parse_line acc line
  = if (2 <=? length (Str.split line))%nat then
      match Str.split line with
      | [checksum; filename] =>
          match Re.search_asset_name filename with
          | Some platform => Ok (<[platform := checksum]> acc)
          | None => Ok acc
          end
      | _ => Raise ValueError
      end
    else Ok acc.
Proof.
  unfold parse_line. destruct (Str.is_empty (Str.strip line)) eqn:Hblank; [|done].
  apply split_blank in Hblank. by rewrite Hblank.
Qed.

Lemma parse_lines_tokens acc ls1 ls2 :
  Forall2 (λ a b, Str.split a = Str.split b) ls1 ls2 →
  parse_lines acc ls1 = parse_lines acc ls2.
Proof.
  intros Hall. revert acc.
  induction Hall as [|a b ls1 ls2 Hab _ IH]; intros acc; [done|].
  simpl. rewrite (parse_line_tokens acc a), (parse_line_tokens acc b), Hab.
  destruct (if (2 <=? length (Str.split b))%nat then _ else _); [apply IH|done].
Qed.

(** X28: the manifest parser sees a line through its tokens only: two
    manifests whose lines have, one by one, the same tokens give the same
    result, however the white space around and between the tokens
    differs. *)
Theorem parse_checksums_by_tokens t1 t2 tag :
  Forall2 (λ a b, Str.split a = Str.split b)
    (Str.split_on Str.LF t1) (Str.split_on Str.LF t2) →
  parse_checksums t1 tag = parse_checksums t2 tag.
Proof. apply parse_lines_tokens. Qed.

Lemma parse_checksums_by_tokens_witness :
  parse_checksums manifest_example "v1.2.3"
  = parse_checksums "  abcd1234    scarb-v1.2.3-x86_64-linux.tar.gz  " "v1.2.3".
Proof.
  apply (parse_checksums_by_tokens manifest_example
           "  abcd1234    scarb-v1.2.3-x86_64-linux.tar.gz  " "v1.2.3").
  repeat constructor.
Defined.

Lemma crlf_lines text :
  Forall2 (λ l l', l' = l ∨ l' = l +:+ String Str.CR "")
    (Str.split_on Str.LF text) (Str.split_on Str.LF (crlf text)).
Proof.
  induction text as [|a s IH]; [repeat constructor; by left|].
  cbn [crlf]. destruct (Ascii.eqb a Str.LF) eqn:E.
  - rewrite (split_on_cons _ a), E.
    rewrite (split_on_cons _ Str.CR), (split_on_cons _ Str.LF).
    change (Ascii.eqb Str.CR Str.LF) with false.
    rewrite Ascii.eqb_refl. constructor; [by right|done].
  - rewrite !split_on_cons, E.
    inversion IH as [|l l' ls ls' [-> | ->] Hrest Hl Hl']; subst.
    + destruct (split_on_nonempty Str.LF s) as (? & ? & ?). congruence.
    + constructor; [by left|done].
    + constructor; [by right|done].
Qed.

(** X29: a manifest with carriage return and line feed at its line ends
    parses like the same manifest with line feeds alone. *)
Theorem parse_checksums_crlf text tag :
  parse_checksums (crlf text) tag = parse_checksums text tag.
Proof.
  symmetry. apply parse_lines_tokens.
  eapply Forall2_impl; [apply crlf_lines|].
  intros l l' [-> | ->]; [done|].
  by rewrite split_trailing_space.
Qed.

(** ** Bodies without a changelog *)

Lemma lstrip_blank s : all_chars Str.is_space s = true → Str.lstrip s = "".
Proof.
  induction s as [|a s IH]; [done|]. simpl.
  intros [Ha Hs]%andb_true_iff. rewrite Ha. by apply IH.
Qed.

(** [splitlines] keeps characters of the text in its pieces. *)
Lemma splitlines_all p s :
  (all_chars p s = true →
   Forall (λ l, all_chars p l = true) (Str.splitlines s))
  ∧ ∀ c, all_chars p (String c s) = true →
         Forall (λ l, all_chars p l = true) (Str.splitlines (String c s)).
Proof.
  induction s as [|c2 s [IH1 IH2]].
  - split; [constructor|]. intros c Hc. cbn [Str.splitlines].
    destruct (Str.is_linebreak c); by repeat constructor.
  - split; [apply IH2|]. intros c Hc.
    apply andb_true_iff in Hc as [Hc Hs].
    change (Str.splitlines (String c (String c2 s)))
      with (if Str.is_linebreak c then
              "" :: (if Ascii.eqb c Str.CR && Ascii.eqb c2 Str.LF
                     then Str.splitlines s
                     else Str.splitlines (String c2 s))
            else match Str.splitlines (String c2 s) with
                 | l :: ls => String c l :: ls
                 | [] => [String c ""]
                 end).
    pose proof (IH2 c2 Hs) as Htail.
    destruct (Str.is_linebreak c).
    + constructor; [done|].
      destruct (Ascii.eqb c Str.CR && Ascii.eqb c2 Str.LF); [|done].
      apply IH1. simpl in Hs. by apply andb_true_iff in Hs as [_ ?].
    + destruct (Str.splitlines (String c2 s)) as [|l ls].
      * repeat constructor. simpl. by rewrite Hc.
      * inversion Htail as [|? ? Hl Hls]; subst. constructor; [|done].
        simpl. by rewrite Hc.
Qed.

(** X30: a body in which nothing but white space is left once its
    comments are removed has no changelog: the cleanup returns [None]. *)
Theorem process_changelog_blank s :
  all_chars Str.is_space (Re.sub_comments s) = true →
  process_changelog (Some s) = None.
Proof.
  intros Hblank. unfold process_changelog. destruct s as [|a s]; [done|].
  assert (Str.strip
            (Str.join Str.nl
               (map Str.rstrip (Str.splitlines (Re.sub_comments (String a s)))))
          = "") as ->; [|done].
  unfold Str.strip. rewrite lstrip_blank; [done|].
  apply all_chars_join; [done|].
  apply Forall_map. eapply Forall_impl.
  - by apply (splitlines_all Str.is_space).
  - intros l Hl. simpl. by apply all_chars_rstrip.
Qed.

Lemma process_changelog_blank_witness :
  process_changelog (Some ("  <!-- internal note -->" +:+ Str.nl +:+ " "))
  = None.
Proof.
  apply (process_changelog_blank
           ("  <!-- internal note -->" +:+ Str.nl +:+ " ")).
  reflexivity.
Defined.
